(** * SDMS: laser dataset handling and date/tag file partitioning

    A shallow embedding of [SDMS/DataHandler.py] and [SDMS/FileManager.py].

    - Python objects whose attributes live in a [dict] ([BaseData]) are
      insertion-ordered association lists;
    - a method that mutates [self] takes the old object and returns the new
      one, together with the exception it raised (if any) and the warnings
      it issued;
    - Python [float] is the kernel's binary64 type, so [nan], the infinities
      and rounding are the real ones;
    - a [datetime] is a number of microseconds, a [str] the list of its code
      points (below 256).

    Part I holds the definitions, Part II the lemmas and theorems. *)

From Stdlib Require Import String Ascii DecimalString.
From Stdlib Require Import ZArith List Bool Lia Floats.
Import ListNotations.

Set Warnings "-inexact-float".
Open Scope Z_scope.
Open Scope list_scope.

(* ================================================================== *)
(** * Part I: definitions *)
(* ================================================================== *)

(** ** The Python runtime the two files rely on *)

Module Py.

(** A Python [str]. *)
Definition str := list ascii.

(** String literals are written [$"..."]. *)
Definition lit (s : string) : str := list_ascii_of_string s.
Notation "$ s" := (lit s%string) (at level 1, format "$ s").

Definition str_eqb (a b : str) : bool :=
  if list_eq_dec ascii_dec a b then true else false.

(** Exceptions of the built-ins used by the source. *)
Inductive exn : Type :=
| ValueError
| KeyError
| IndexError
| OverflowError
| AttributeError
| TypeError.

(** A computation that returns or raises. *)
Definition result (A : Type) : Type := (exn + A)%type.

Definition ret {A} (a : A) : result A := inr a.
Definition raise {A} (e : exn) : result A := inl e.
Definition bind {A B} (m : result A) (k : A -> result B) : result B :=
  match m with
  | inl e => inl e
  | inr a => k a
  end.

Notation "x <- m ;; k" := (bind m (fun x => k))
  (at level 61, m at next level, right associativity).

(** [list(map(f, xs))]: left to right, stopping at the first exception. *)
Fixpoint mapM {A B} (f : A -> result B) (xs : list A) : result (list B) :=
  match xs with
  | [] => ret []
  | x :: r => y <- f x ;; ys <- mapM f r ;; ret (y :: ys)
  end.

(** *** Characters *)

Definition code (c : ascii) : N := N_of_ascii c.

(** [str.isspace] on one code point below 256. *)
Definition is_space (c : ascii) : bool :=
  let n := code c in
  ((9 <=? n) && (n <=? 13) || (28 <=? n) && (n <=? 32)
   || (n =? 133) || (n =? 160))%N.

Definition is_digit (c : ascii) : bool :=
  let n := code c in ((48 <=? n) && (n <=? 57))%N.

Definition digit_val (c : ascii) : Z := Z.of_N (code c) - 48.

(** [str.lower] on one code point below 256. *)
Definition lower_char (c : ascii) : ascii :=
  let n := code c in
  if ((65 <=? n) && (n <=? 90)
      || (192 <=? n) && (n <=? 222) && negb (n =? 215))%N
  then ascii_of_N (n + 32) else c.

(** *** [str] methods *)

Definition lower (s : str) : str := map lower_char s.

Fixpoint lstrip (s : str) : str :=
  match s with
  | [] => []
  | c :: r => if is_space c then lstrip r else s
  end.

Definition rstrip (s : str) : str := rev (lstrip (rev s)).

Definition strip (s : str) : str := rstrip (lstrip s).

(** Only white space. *)
Definition blank (s : str) : Prop := Forall (fun c => is_space c = true) s.

(** [s.split(sep)] for a one-character separator: never empty. *)
Fixpoint split (sep : ascii) (s : str) : list str :=
  match s with
  | [] => [[]]
  | c :: r =>
      if ascii_dec c sep then [] :: split sep r
      else match split sep r with
           | t :: ts => (c :: t) :: ts
           | [] => [[c]]
           end
  end.

(** [s.startswith(p)]. *)
Fixpoint startswith (p s : str) : bool :=
  match p, s with
  | [], _ => true
  | _ :: _, [] => false
  | a :: p', b :: s' => if ascii_dec a b then startswith p' s' else false
  end.

(** [s.replace(old, new)] for a non-empty [old]: occurrences are replaced
    from the left and do not overlap.  [skip] counts the characters of the
    occurrence just replaced that are still to be dropped. *)
Fixpoint replace_from (old new : str) (skip : nat) (s : str) : str :=
  match s with
  | [] => []
  | c :: r =>
      match skip with
      | S k => replace_from old new k r
      | O =>
          if startswith old s
          then new ++ replace_from old new (length old - 1) r
          else c :: replace_from old new 0 r
      end
  end.

Definition replace (old new : str) (s : str) : str := replace_from old new 0 s.

(** Slices [s[:n]] and [s[-n:]] (for [n > 0]). *)
Definition slice_to {A} (n : nat) (s : list A) : list A := firstn n s.
Definition slice_last {A} (n : nat) (s : list A) : list A :=
  skipn (length s - n) s.

(** [t[i]] on a tuple or list, negative indices counting from the end. *)
Definition index {A} (t : list A) (i : Z) : result A :=
  let n := Z.of_nat (length t) in
  let j := if i <? 0 then i + n else i in
  if (0 <=? j) && (j <? n)
  then match nth_error t (Z.to_nat j) with
       | Some a => ret a
       | None => raise IndexError
       end
  else raise IndexError.

(** [f] applied to the last element of a list: what [strip] on a string
    does to its fields. *)
Fixpoint on_last {A} (f : A -> A) (l : list A) : list A :=
  match l with
  | [] => []
  | [x] => [f x]
  | x :: r => x :: on_last f r
  end.

(** The element at position [k] from the end, [0] being the last: how the
    specification names the fields of a command string (its suffix, its
    second-to-last token). *)
Definition from_end {A} (k : nat) (l : list A) : option A := nth_error (rev l) k.

(** *** Numbers *)

(** White space as [int(s)] and [float(s)] see it: the ASCII white space
    of C, and the two code points (NEL, NBSP) that the conversion turns
    into spaces beforehand.  The separators U+001C to U+001F, white space
    for [str.strip], are not among them: [float("\x1c1.5")] raises. *)
Definition is_num_space (c : ascii) : bool :=
  let n := code c in
  ((9 <=? n) && (n <=? 13) || (n =? 32) || (n =? 133) || (n =? 160))%N.

Fixpoint num_lstrip (s : str) : str :=
  match s with
  | [] => []
  | c :: r => if is_num_space c then num_lstrip r else s
  end.

(** The text between the white space that the conversion skips at both
    ends. *)
Definition num_strip (s : str) : str := rev (num_lstrip (rev (num_lstrip s))).

(** Leading sign of a numeric literal. *)
Definition split_sign (s : str) : bool * str :=
  match s with
  | c :: r =>
      if ascii_dec c "-" then (true, r)
      else if ascii_dec c "+" then (false, r)
      else (false, s)
  | [] => (false, s)
  end.

(** Digits with single underscores between them; [prev] tells whether the
    previous character was a digit. *)
Fixpoint digitpart (acc : Z) (prev : bool) (s : str) : option Z :=
  match s with
  | [] => if prev then Some acc else None
  | c :: r =>
      if is_digit c then digitpart (10 * acc + digit_val c) true r
      else if ascii_dec c "_" then (if prev then digitpart acc false r else None)
      else None
  end.

(** [sys.get_int_max_str_digits()], as the interpreter starts with. *)
Definition max_str_digits : nat := 4300.

(** [int(s)] for a [str] (base 10): a literal of more than
    [max_str_digits] digits is refused like one that is not a number. *)
Definition py_int (s : str) : result Z :=
  let '(neg, r) := split_sign (num_strip s) in
  match digitpart 0 false r with
  | Some n =>
      if (length (filter is_digit r) <=? max_str_digits)%nat
      then ret (if neg then - n else n)
      else raise ValueError
  | None => raise ValueError
  end.

(** An integer as the nearest binary64 value (ties to even). *)
Definition float_of_Z (z : Z) : float :=
  SF2Prim (binary_normalize prec emax z 0 false).

(** The decimal [(-1)^neg * m * 10^e10], [m >= 0], correctly rounded.  For a
    negative exponent the quotient is taken with 64 extra bits and a sticky
    last bit, which the final rounding to nearest absorbs. *)
Definition float_of_decimal (neg : bool) (m e10 : Z) : float :=
  if m =? 0 then (if neg then neg_zero else zero)
  else
    let sm := if neg then - m else m in
    if 0 <=? e10 then SF2Prim (binary_normalize prec emax (sm * 10 ^ e10) 0 false)
    else
      let d := 10 ^ (- e10) in
      let k := Z.log2_up d + 64 in
      let q := (m * 2 ^ k) / d in
      let sticky := if (m * 2 ^ k) mod d =? 0 then 0 else 1 in
      let q' := 2 * q + sticky in
      SF2Prim (binary_normalize prec emax (if neg then - q' else q') (- (k + 1)) false).

(** States of the scanner for [floatnumber]:
    [digitpart ["." [digitpart]] | "." digitpart] [("e"|"E") ["+"|"-"] digitpart]. *)
Inductive fstate : Type :=
| FStart          (* nothing read *)
| FInt            (* in the integer part, after a digit *)
| FIntU           (* in the integer part, after an underscore *)
| FDot0           (* after a leading "." *)
| FDot1           (* after "." following an integer part *)
| FFrac           (* in the fraction, after a digit *)
| FFracU          (* in the fraction, after an underscore *)
| FExp0           (* after "e" *)
| FExpS           (* after the exponent's sign *)
| FExp            (* in the exponent, after a digit *)
| FExpU.          (* in the exponent, after an underscore *)

(** What the scanner has read: all mantissa digits, the number of them after
    the point, and the exponent. *)
Record facc : Type := { f_mant : Z; f_scale : Z; f_eneg : bool; f_exp : Z }.

Definition facc0 : facc := {| f_mant := 0; f_scale := 0; f_eneg := false; f_exp := 0 |}.

Definition is_e (c : ascii) : bool :=
  if ascii_dec c "e" then true else if ascii_dec c "E" then true else false.

Definition fstep (st : fstate) (a : facc) (c : ascii) : option (fstate * facc) :=
  let int_digit := {| f_mant := 10 * f_mant a + digit_val c; f_scale := f_scale a;
                      f_eneg := f_eneg a; f_exp := f_exp a |} in
  let frac_digit := {| f_mant := 10 * f_mant a + digit_val c; f_scale := f_scale a + 1;
                       f_eneg := f_eneg a; f_exp := f_exp a |} in
  let exp_digit := {| f_mant := f_mant a; f_scale := f_scale a;
                      f_eneg := f_eneg a; f_exp := 10 * f_exp a + digit_val c |} in
  let exp_neg := {| f_mant := f_mant a; f_scale := f_scale a;
                    f_eneg := true; f_exp := f_exp a |} in
  let dot := ascii_dec c "." in
  let und := ascii_dec c "_" in
  match st with
  | FStart => if is_digit c then Some (FInt, int_digit)
              else if dot then Some (FDot0, a) else None
  | FInt => if is_digit c then Some (FInt, int_digit)
            else if und then Some (FIntU, a)
            else if dot then Some (FDot1, a)
            else if is_e c then Some (FExp0, a) else None
  | FIntU => if is_digit c then Some (FInt, int_digit) else None
  | FDot0 => if is_digit c then Some (FFrac, frac_digit) else None
  | FDot1 => if is_digit c then Some (FFrac, frac_digit)
             else if is_e c then Some (FExp0, a) else None
  | FFrac => if is_digit c then Some (FFrac, frac_digit)
             else if und then Some (FFracU, a)
             else if is_e c then Some (FExp0, a) else None
  | FFracU => if is_digit c then Some (FFrac, frac_digit) else None
  | FExp0 => if is_digit c then Some (FExp, exp_digit)
             else if ascii_dec c "+" then Some (FExpS, a)
             else if ascii_dec c "-" then Some (FExpS, exp_neg) else None
  | FExpS => if is_digit c then Some (FExp, exp_digit) else None
  | FExp => if is_digit c then Some (FExp, exp_digit)
            else if und then Some (FExpU, a) else None
  | FExpU => if is_digit c then Some (FExp, exp_digit) else None
  end.

Definition faccepts (st : fstate) : bool :=
  match st with
  | FInt | FDot1 | FFrac | FExp => true
  | _ => false
  end.

Fixpoint fscan (st : fstate) (a : facc) (s : str) : option facc :=
  match s with
  | [] => if faccepts st then Some a else None
  | c :: r =>
      match fstep st a c with
      | Some (st', a') => fscan st' a' r
      | None => None
      end
  end.

(** [float(s)] for a [str]: the white space of [is_num_space] is skipped
    at both ends; after an optional sign come [inf], [infinity] or [nan] in
    any case, or a decimal [floatnumber]. *)
Definition py_float (s : str) : result float :=
  let '(neg, r) := split_sign (num_strip s) in
  let l := lower r in
  if str_eqb l $"inf" || str_eqb l $"infinity"
  then ret (if neg then neg_infinity else infinity)
  else if str_eqb l $"nan" then ret nan
  else match fscan FStart facc0 r with
       | Some a =>
           ret (float_of_decimal neg (f_mant a)
                  ((if f_eneg a then - f_exp a else f_exp a) - f_scale a))
       | None => raise ValueError
       end.

(** [int(x)] for a [float]: truncation towards zero. *)
Definition int_of_float (x : float) : result Z :=
  match Prim2SF x with
  | S754_zero _ => ret 0
  | S754_finite s m e =>
      let a := if 0 <=? e then Zpos m * 2 ^ e else Zpos m / 2 ^ (- e) in
      ret (if s then - a else a)
  | S754_infinity _ => raise OverflowError
  | S754_nan => raise ValueError
  end.

(** [round(x)] for a [float]: to the nearest integer, ties to even. *)
Definition round_float (x : float) : result Z :=
  match Prim2SF x with
  | S754_zero _ => ret 0
  | S754_finite s m e =>
      let a :=
        if 0 <=? e then Zpos m * 2 ^ e
        else
          let d := 2 ^ (- e) in
          let q := Zpos m / d in
          let r := Zpos m mod d in
          match 2 * r ?= d with
          | Lt => q
          | Gt => q + 1
          | Eq => if Z.even q then q else q + 1
          end in
      ret (if s then - a else a)
  | S754_infinity _ => raise OverflowError
  | S754_nan => raise ValueError
  end.

(** *** [dict]: insertion-ordered, keys are [str] *)

Definition dict (V : Type) : Type := list (str * V).

Fixpoint dict_get {V} (d : dict V) (k : str) : option V :=
  match d with
  | [] => None
  | (k', v) :: r => if str_eqb k' k then Some v else dict_get r k
  end.

(** [d[k] = v]: an existing key keeps its place, a new one goes last. *)
Fixpoint dict_set {V} (d : dict V) (k : str) (v : V) : dict V :=
  match d with
  | [] => [(k, v)]
  | (k', v') :: r =>
      if str_eqb k' k then (k', v) :: r else (k', v') :: dict_set r k v
  end.

(** [d.update(other)]. *)
Definition dict_update {V} (d other : dict V) : dict V :=
  fold_left (fun acc kv => dict_set acc (fst kv) (snd kv)) other d.

Definition dict_keys {V} (d : dict V) : list str := map fst d.

(** *** [datetime] and [timedelta]

    Both count microseconds; a [datetime] counts them from
    0001-01-01T00:00:00 and ends with the year 9999. *)

Definition datetime := Z.
Definition timedelta := Z.

Definition us_per_day : Z := 86400 * 1000000.
Definition datetime_end : Z := 3652059 * us_per_day.
Definition unix_epoch : datetime := 719162 * us_per_day.

(** [timedelta(seconds=x)] for a [float]: the whole seconds and the
    fraction are converted apart, the fraction rounded to the microsecond
    (ties to even); more than 999999999 days is an [OverflowError]. *)
Definition timedelta_seconds (x : float) : result timedelta :=
  whole <- int_of_float x ;;
  let frac := (x - float_of_Z whole)%float in
  us <- round_float (frac * 1e6)%float ;;
  let total := whole * 1000000 + us in
  if Z.abs (total / us_per_day) <=? 999999999 then ret total
  else raise OverflowError.

(** [t - d] on a [datetime] and a [timedelta]. *)
Definition datetime_sub (t : datetime) (d : timedelta) : result datetime :=
  let r := t - d in
  if (0 <=? r) && (r <? datetime_end) then ret r else raise OverflowError.

(** [t.timestamp()] of a UTC instant: seconds since 1970, correctly rounded. *)
Definition timestamp (t : datetime) : float :=
  let z := t - unix_epoch in
  float_of_decimal (z <? 0) (Z.abs z) (-6).

(** *** numpy *)

(** [np.isnan] on one value is [PrimFloat.is_nan]; [np.nan_to_num] with its
    default arguments sends [nan] to zero and the infinities to the largest
    finite values of their sign. *)
Definition max_float : float := 0x1.fffffffffffffp+1023%float.

Definition nan_to_num (x : float) : float :=
  if is_nan x then zero
  else if (x =? infinity)%float then max_float
  else if (x =? neg_infinity)%float then (- max_float)%float
  else x.

(** *** [dict], continued *)

Fixpoint dict_remove {V} (d : dict V) (k : str) : dict V :=
  match d with
  | [] => []
  | (k', v) :: r =>
      if str_eqb k' k then dict_remove r k else (k', v) :: dict_remove r k
  end.

(** [del d[k]]. *)
Definition dict_del {V} (d : dict V) (k : str) : result (dict V) :=
  match dict_get d k with
  | Some _ => ret (dict_remove d k)
  | None => raise KeyError
  end.

End Py.

(* ------------------------------------------------------------------ *)
(** ** [SDMS/DataHandler.py] *)

Module DataHandler.
Import Py.

(** Values held by a [BaseData] dictionary. *)
Inductive pyval : Type :=
| VStr (s : str)
| VInt (z : Z).

(** [class BaseData(dict)]: attribute syntax on a dictionary.
    [__setattr__ = dict.__setitem__] sends every assignment [self.x = v] to
    the dictionary; [__getattr__ = dict.__getitem__] is only consulted when
    the ordinary lookup (class attributes, properties) finds nothing. *)
Definition BaseData : Type := dict pyval.

Definition setattr (self : BaseData) (name : str) (v : pyval) : BaseData :=
  dict_set self name v.

Definition getattr (cls self : BaseData) (name : str) : result pyval :=
  match dict_get cls name with
  | Some v => ret v
  | None =>
      match dict_get self name with
      | Some v => ret v
      | None => raise KeyError
      end
  end.

(** A value used as a [str] (method call on an [int] fails). *)
Definition as_str (v : pyval) : result str :=
  match v with
  | VStr s => ret s
  | VInt _ => raise AttributeError
  end.

(** *** [class LaserMetaData(BaseData)] *)

Definition LaserMetaData : Type := BaseData.

(** [SamplingRates], in microseconds. *)
Definition SamplingRates : list (Z * float) :=
  [ (0, 2.55%float); (1, 5%float); (2, 10%float); (3, 20%float);
    (4, 50%float); (5, 100%float); (6, 200%float); (7, 500%float);
    (8, 1000%float) ].

Fixpoint rate_of (table : list (Z * float)) (c : Z) : option float :=
  match table with
  | [] => None
  | (k, q) :: r => if k =? c then Some q else rate_of r c
  end.

(** [q.to(u.s)] on a quantity in microseconds: the value times the scale
    of the unit. *)
Definition to_s (q : float) : float := (1e-6 * q)%float.

Definition OUT : str := $"01".

Definition Storage : dict str :=
  [ ($"Initialize", $"AQ"); ($"Start", $"AS"); ($"Status", $"AN");
    ($"Stop", $"AP"); ($"Fetch", $"AO," ++ OUT) ].

Definition RawConfig : dict str :=
  [ ($"Tolerance", $"SW,LM," ++ OUT ++ $",");
    ($"SetStorage", $"SW,OK," ++ OUT ++ $",");
    ($"SurfaceToBeMeasured", $"SW,OA,T," ++ OUT ++ $",");
    ($"Scaling", $"SW,OB," ++ OUT ++ $",");
    ($"Filter", $"SW,OC," ++ OUT ++ $",0,");
    ($"MeasurementModeSensor", $"SW,OD," ++ OUT ++ $",");
    ($"MeasurementModeTarget", $"SW,HB," ++ OUT ++ $",");
    ($"TriggerMode", $"SW,OE,M," ++ OUT ++ $",");
    ($"Offset", $"SW,OF," ++ OUT ++ $",");
    ($"MeasurementType", $"SW,OI," ++ OUT ++ $",");
    ($"SamplingCycle", $"SW,CA,");
    ($"DataStorage", $"SW,CF,") ].

Definition Programs : list (list str) :=
  [ [ $"+500.000, -500.000, 0000.000"; $"1"; $"0";
      $"+000.000, +000.000, +999.999, +999.999"; $"0"; $"0"; $"0"; $"4";
      $"+000.000"; $"0"; $"8"; $"0060000,1" ] ].

Definition CurrentProgram : Z := 0.

(** The class attributes that hold plain values; they are what
    [self.OUT] and [self.CurrentProgram] evaluate to, whatever the
    dictionary holds under these names. *)
Definition class_attrs : BaseData :=
  [ ($"OUT", VStr OUT); ($"CurrentProgram", VInt CurrentProgram) ].

(** The other names that the class statement and [dict] define: the tables,
    the properties and the methods (the special names, written with two
    underscores on each side, are left out).  They too are found before
    [__getattr__] is asked, and what they evaluate to is no [pyval]: the
    properties are read through [property] below, and [getattr] is asked
    for none of these names, only for the fields of the configuration. *)
Definition class_names : list str :=
  [ $"SamplingRates"; $"Storage"; $"RawConfig"; $"Programs";
    $"Frequency"; $"WaitingTime"; $"StorageSize"; $"dt"; $"CurrentConfig";
    $"program_index"; $"change_program";
    $"clear"; $"copy"; $"fromkeys"; $"get"; $"items"; $"keys"; $"pop";
    $"popitem"; $"setdefault"; $"update"; $"values" ].

(** A value used as the index of a tuple. *)
Definition as_index (v : pyval) : result Z :=
  match v with
  | VInt z => ret z
  | VStr _ => raise TypeError
  end.

(** *** Properties

    What reading a property gives.  The getter runs first.  When it raises
    [AttributeError], the attribute counts as not found and Python asks
    [__getattr__], here [dict.__getitem__] with the property's own name:
    the caller gets what the dictionary holds under that name, or
    [KeyError].  Any other exception of the getter reaches the caller. *)
Inductive attr (A : Type) : Type :=
| Computed (a : A)     (* returned by the getter *)
| Stored (v : pyval).  (* found in the dictionary under the property's name *)
Arguments Computed {A} a.
Arguments Stored {A} v.

Definition property {A} (name : str) (getter : BaseData -> result A)
  (self : BaseData) : result (attr A) :=
  match getter self with
  | inr a => ret (Computed a)
  | inl AttributeError =>
      match dict_get self name with
      | Some v => ret (Stored v)
      | None => raise KeyError
      end
  | inl e => raise e
  end.

(** [q.value] on what [self.dt] gave: a [str] or an [int] has no such
    attribute. *)
Definition value (q : attr float) : result float :=
  match q with
  | Computed x => ret x
  | Stored _ => raise AttributeError
  end.

(** An operand of [float * ...]: an [int] is converted, a [str] is not a
    number. *)
Definition as_factor (n : attr Z) : result float :=
  match n with
  | Computed z => ret (float_of_Z z)
  | Stored (VInt z) => ret (float_of_Z z)
  | Stored (VStr _) => raise TypeError
  end.

(** The body of [dt]: the sampling interval, in seconds. *)
Definition dt_getter (self : LaserMetaData) : result float :=
  v <- getattr class_attrs self $"SamplingCycle" ;;
  s <- as_str v ;;
  tok <- index (split "," s) (-1) ;;
  c <- py_int tok ;;
  match rate_of SamplingRates c with
  | Some q => ret (to_s q)
  | None => raise KeyError
  end.

Definition dt : LaserMetaData -> result (attr float) := property $"dt" dt_getter.

Definition StorageSize_getter (self : LaserMetaData) : result Z :=
  v <- getattr class_attrs self $"DataStorage" ;;
  s <- as_str v ;;
  tok <- index (split "," s) (-2) ;;
  py_int tok.

Definition StorageSize : LaserMetaData -> result (attr Z) :=
  property $"StorageSize" StorageSize_getter.

(** The interval is one of the rates of the table, never zero, so the
    division is always defined. *)
Definition Frequency_getter (self : LaserMetaData) : result Z :=
  q <- dt self ;;
  d <- value q ;;
  int_of_float (1 / d)%float.

Definition Frequency : LaserMetaData -> result (attr Z) :=
  property $"Frequency" Frequency_getter.

Definition WaitingTime_getter (self : LaserMetaData) : result Z :=
  q <- dt self ;;
  d <- value q ;;
  n <- StorageSize self ;;
  f <- as_factor n ;;
  int_of_float (d * f)%float.

Definition WaitingTime : LaserMetaData -> result (attr Z) :=
  property $"WaitingTime" WaitingTime_getter.

(** The loop of [CurrentConfig]: a fresh dictionary filled from the zip of
    the template's items with the program's values. *)
Definition zip_config (template : dict str) (prog : list str) : dict str :=
  fold_left
    (fun current_config kv =>
       dict_set current_config (fst (fst kv)) (snd (fst kv) ++ snd kv))
    (combine template prog) [].

Definition CurrentConfig (self : LaserMetaData) : result (dict str) :=
  v <- getattr class_attrs self $"CurrentProgram" ;;
  i <- as_index v ;;
  prog <- index Programs i ;;
  ret (zip_config RawConfig prog).

(** The resolved configuration as the specification words it: every key of
    the template, in order, with its prefix followed by the value at the
    same position of the program. *)
Definition resolved (template : dict str) (prog : list str) : dict str :=
  map (fun kv => (fst (fst kv), snd (fst kv) ++ snd kv)) (combine template prog).

(** [list(...).index(key)]. *)
Fixpoint list_index (keys : list str) (key : str) (i : Z) : result Z :=
  match keys with
  | [] => raise ValueError
  | k :: r => if str_eqb k key then ret i else list_index r key (i + 1)
  end.

Definition program_index (key : str) : result Z :=
  list_index (dict_keys RawConfig) key 0.

Definition str_values (d : dict str) : BaseData :=
  map (fun kv => (fst kv, VStr (snd kv))) d.

(** A method of [LaserMetaData] leaves the object it worked on and returns
    or raises. *)
Definition change_program (self : LaserMetaData) (program : Z)
  : result unit * LaserMetaData :=
  if program >=? Z.of_nat (length Programs) then (raise ValueError, self)
  else
    let self1 := setattr self $"CurrentProgram" (VInt program) in
    match CurrentConfig self1 with
    | inr cfg => (ret tt, dict_update self1 (str_values cfg))
    | inl e => (raise e, self1)
    end.

Definition config_fields : list str :=
  [ $"Tolerance"; $"SetStorage"; $"SurfaceToBeMeasured"; $"Scaling";
    $"Filter"; $"MeasurementModeSensor"; $"MeasurementModeTarget";
    $"TriggerMode"; $"Offset"; $"MeasurementType"; $"SamplingCycle";
    $"DataStorage" ].

(** [LaserMetaData()]: every field starts as ["undefined"] and is then
    overwritten from [CurrentConfig]. *)
Definition LaserMetaData_init : result LaserMetaData :=
  let self0 := fold_left (fun d f => setattr d f (VStr $"undefined")) config_fields [] in
  cfg <- CurrentConfig self0 ;;
  ret (dict_update self0 (str_values cfg)).

(** *** [class LaserData(BaseDataSet)]

    The four attributes set by [__init__] are the object's whole state. *)
Record LaserData : Type := {
  Data : list float;
  MetaData : LaserMetaData;
  StartTime : datetime;
  EndTime : datetime
}.

(** What a warning shows of the rejected input: a slice of the raw [str],
    or of the parsed list when the failure came later. *)
Inductive excerpt : Type :=
| ExStr (s : str)
| ExList (l : list float).

(** The two [warnings.warn] calls of the class:
    ["Invalid data received from laser: {} ... {}"] with its two arguments,
    and ["Warning: Data contains NaN values. These will be replaced with 0."]. *)
Inductive warning : Type :=
| InvalidData (first last : excerpt)
| NaNReplaced.

(** A method of [LaserData] returns or raises, leaves the object it worked
    on, and may have issued warnings. *)
Definition outcome (A : Type) : Type := (result A * LaserData * list warning)%type.

(** [LaserData()], the two readings of the clock being [t0] and [t1]. *)
Definition LaserData_init (t0 t1 : datetime) : result LaserData :=
  m <- LaserMetaData_init ;;
  ret {| Data := []; MetaData := m; StartTime := t0; EndTime := t1 |}.

Definition data_length (self : LaserData) : Z := Z.of_nat (length (Data self)).

Definition has_nan (self : LaserData) : bool := existsb is_nan (Data self).

(** [insert], [now] being the reading of the clock. *)
Definition insert (self : LaserData) (data : list float) (now : datetime)
  : result unit * LaserData :=
  let self1 := {| Data := Data self ++ data; MetaData := MetaData self;
                  StartTime := StartTime self; EndTime := EndTime self |} in
  let self2 := {| Data := Data self1; MetaData := MetaData self1;
                  StartTime := StartTime self1; EndTime := now |} in
  match (q <- dt (MetaData self2) ;;
         d <- value q ;;
         delta <- timedelta_seconds (float_of_Z (data_length self2) * d)%float ;;
         datetime_sub (EndTime self2) delta) with
  | inr start =>
      (ret tt, {| Data := Data self2; MetaData := MetaData self2;
                  StartTime := start; EndTime := EndTime self2 |})
  | inl e => (raise e, self2)
  end.

Definition SENTINEL : str := $"FFFFFFF".

(** [parse_insert]: [data] is rebound to the parsed list only when the whole
    right-hand side has been evaluated, so a failing [float] leaves it the
    raw [str] that the warning slices. *)
Definition parse_insert (self : LaserData) (data : str) (now : datetime)
  : outcome unit :=
  match mapM py_float (tl (split "," (strip (replace SENTINEL $"nan" data)))) with
  | inr parsed =>
      match insert self parsed now with
      | (inl ValueError, self') =>
          (ret tt, self',
           [InvalidData (ExList (slice_to 10 parsed)) (ExList (slice_last 10 parsed))])
      | (r, self') => (r, self', [])
      end
  | inl ValueError =>
      (ret tt, self,
       [InvalidData (ExStr (slice_to 10 data)) (ExStr (slice_last 10 data))])
  | inl e => (raise e, self, [])
  end.

(** The arguments handed to [gwpy]'s [TimeSeries]. *)
Record TimeSeries : Type := {
  ts_data : list float;
  ts_unit : str;
  ts_t0 : float;
  ts_dt : attr float;
  ts_name : str
}.

Definition timeseries (self : LaserData) : outcome TimeSeries :=
  let '(data, warned) :=
    if has_nan self then (map nan_to_num (Data self), [NaNReplaced])
    else (Data self, []) in
  (d <- dt (MetaData self) ;;
   ret {| ts_data := data; ts_unit := $"um"; ts_t0 := timestamp (StartTime self);
          ts_dt := d; ts_name := $"LVDT Laser" |},
   self, warned).

(** *** The specification's side

    The start of the time window as the invariant words it:
    [EndTime - timedelta(seconds = n * dt)] for a buffer of [n] samples. *)
Definition window_start (m : LaserMetaData) (n : Z) (end_time : datetime)
  : result datetime :=
  q <- dt m ;;
  d <- value q ;;
  delta <- timedelta_seconds (float_of_Z n * d)%float ;;
  datetime_sub end_time delta.

Definition window_invariant (self : LaserData) : Prop :=
  window_start (MetaData self) (data_length self) (EndTime self)
  = inr (StartTime self).

(** A run of [insert] calls, each with its samples and its reading of the
    clock; the run stops at the first call that raises. *)
Fixpoint insert_all (self : LaserData) (calls : list (list float * datetime))
  : result unit * LaserData :=
  match calls with
  | [] => (ret tt, self)
  | (data, now) :: rest =>
      match insert self data now with
      | (inr _, self') => insert_all self' rest
      | (inl e, self') => (raise e, self')
      end
  end.

(** The window's start can be computed at every call of the run, the buffer
    holding [n] samples before it. *)
Fixpoint calls_defined (m : LaserMetaData) (n : nat)
  (calls : list (list float * datetime)) : Prop :=
  match calls with
  | [] => True
  | (data, now) :: rest =>
      (exists start, window_start m (Z.of_nat (n + length data)) now = inr start)
      /\ calls_defined m (n + length data) rest
  end.

(** The sample tokens of a raw frame: its comma-separated fields but the
    first. *)
Definition sample_tokens (data : str) : list str := tl (split "," data).

(** [z] is [x] truncated to an integer, in exact arithmetic on the value
    [(-1)^s * m * 2^e] that [x] stands for: [z] has the sign of [x] and
    [|z| <= |x| < |z| + 1]. *)
Definition truncation (x : float) (z : Z) : Prop :=
  match Prim2SF x with
  | S754_zero _ => z = 0
  | S754_finite s m e =>
      (if s then z <= 0 else 0 <= z)
      /\ (if 0 <=? e then Z.abs z = Zpos m * 2 ^ e
          else Z.abs z * 2 ^ (- e) <= Zpos m < (Z.abs z + 1) * 2 ^ (- e))
  | _ => False
  end.

(** The sampling intervals in seconds and the frequencies that the table
    gives, code by code. *)
Definition derived_table : list (Z * float * Z) :=
  [ (0, 2.5499999999999997e-06%float, 392156);
    (1, 4.9999999999999996e-06%float, 200000);
    (2, 9.999999999999999e-06%float, 100000);
    (3, 1.9999999999999998e-05%float, 50000);
    (4, 4.9999999999999996e-05%float, 20000);
    (5, 9.999999999999999e-05%float, 10000);
    (6, 0.00019999999999999998%float, 5000);
    (7, 0.0005%float, 2000);
    (8, 0.001%float, 1000) ].

(** A token is numeric when [float] accepts it. *)
Definition numeric (t : str) : Prop := exists v, py_float t = inr v.

(** The reading a sample token stands for: [nan] for the sentinel, its
    [float] otherwise. *)
Definition sample_value (t : str) : float :=
  if str_eqb t SENTINEL then nan
  else match py_float t with
       | inr v => v
       | inl _ => nan
       end.

(** Zero in the place of [nan], every other value kept. *)
Definition zero_at_nan (x : float) : float := if is_nan x then zero else x.

(** What a sample token is read as once the sentinel has been replaced in
    it ([nan] standing in when [float] refuses it). *)
Definition reading (t : str) : float :=
  match py_float (replace SENTINEL $"nan" t) with
  | inr v => v
  | inl _ => nan
  end.

(** *** More of [BaseData] *)

(** The fields of the first program, as [change_program] writes them. *)
Definition program0_fields : BaseData :=
  str_values (zip_config RawConfig (nth 0 Programs [])).

(** [del self.name]: [__delattr__ = dict.__delitem__]. *)
Definition delattr (self : BaseData) (name : str) : result BaseData :=
  dict_del self name.

End DataHandler.

(* ------------------------------------------------------------------ *)
(** ** [SDMS/FileManager.py] *)

Module FileManager.
Import Py.

(** A [pathlib.Path] (POSIX flavour), given by its [parts]: the root, if
    any, then the components, without empty ones and without ["."]. *)
Definition Path : Type := list str.

Definition path_root (s : str) : list str :=
  match s with
  | c1 :: c2 :: c3 :: _ =>
      if ascii_dec c1 "/" then
        if ascii_dec c2 "/" then
          if ascii_dec c3 "/" then [$"/"] else [$"//"]
        else [$"/"]
      else []
  | [c1; c2] =>
      if ascii_dec c1 "/" then (if ascii_dec c2 "/" then [$"//"] else [$"/"])
      else []
  | [c1] => if ascii_dec c1 "/" then [$"/"] else []
  | [] => []
  end.

Definition path_names (s : str) : list str :=
  filter (fun n => negb (str_eqb n [] || str_eqb n $".")) (split "/" s).

(** [Path(s)]. *)
Definition Path_of (s : str) : Path := path_root s ++ path_names s.

(** [p / s]: an absolute [s] replaces [p]. *)
Definition truediv (p : Path) (s : str) : Path :=
  match path_root s with
  | [] => p ++ path_names s
  | root => root ++ path_names s
  end.

(** [datetime.date]. *)
Record date : Type := { year : Z; month : Z; day : Z }.

Definition date_eqb (a b : date) : bool :=
  (year a =? year b) && (month a =? month b) && (day a =? day b).

(** [current_date != self.current_date], the cache being [None] at first. *)
Definition date_differs (current_date : date) (cached : option date) : bool :=
  match cached with
  | None => true
  | Some d => negb (date_eqb current_date d)
  end.

(** ["{:0wd}".format(n)]: decimal, zero-padded to [w] characters, the sign
    counted in the width. *)
Definition decimal (n : Z) : str := lit (NilZero.string_of_uint (N.to_uint (Z.to_N n))).

Definition zero_pad (w : nat) (s : str) : str := repeat "0"%char (w - length s) ++ s.

Definition format_d (w : nat) (n : Z) : str :=
  if n <? 0 then "-"%char :: zero_pad (w - 1) (decimal (- n))
  else zero_pad w (decimal n).

Definition tags : dict str :=
  [ ($"test", $"test"); ($"experiment", $"experiment");
    ($"calibration", $"calibration"); ($"temp", $"temp") ].

(** [self.tags[k]]. *)
Definition tags_item (k : str) : result str :=
  match dict_get tags k with
  | Some v => ret v
  | None => raise KeyError
  end.

(** [tag in self.tags]. *)
Definition tags_contains (k : str) : bool :=
  match dict_get tags k with
  | Some _ => true
  | None => false
  end.

Record FileManager : Type := {
  root_path : Path;
  current_date : option date;
  current_path : str;
  current_full_path : Path
}.

(** [FileManager(root_path)].  Creating directories acts on the file
    system only; it is left out here and in [filepath]. *)
Definition FileManager_init (root : Path) : FileManager :=
  {| root_path := root; current_date := None; current_path := $"temp";
     current_full_path := truediv root $"temp" |}.

(** ["{}/{}".format(a, b)]. *)
Definition slash (a b : str) : str := a ++ "/"%char :: b.

(** [filepath], [today] being [nowUTC().date()]. *)
Definition filepath (self : FileManager) (tag : str) (today : date)
  : result Path * FileManager :=
  let tag := lower (strip tag) in
  let self1 :=
    if date_differs today (current_date self)
    then {| root_path := root_path self; current_date := Some today;
            current_path := slash (format_d 4 (year today))
                              (slash (format_d 2 (month today))
                                     (format_d 2 (day today)));
            current_full_path := current_full_path self |}
    else self in
  match (if tags_contains tag then tags_item tag else tags_item $"test") with
  | inr t =>
      let path := slash t (current_path self1) in
      let full := truediv (root_path self1) path in
      (ret full,
       {| root_path := root_path self1; current_date := current_date self1;
          current_path := path; current_full_path := full |})
  | inl e => (raise e, self1)
  end.

(** The tag whose directory [filepath] uses: the normalised tag when it is
    a key of [tags], ["test"] otherwise. *)
Definition normalized (tag : str) : str := lower (strip tag).

Definition known_tag (tag : str) : str :=
  if tags_contains (normalized tag) then normalized tag else $"test".

(** The date segment ["YYYY/MM/DD"]. *)
Definition date_segment (d : date) : str :=
  slash (format_d 4 (year d)) (slash (format_d 2 (month d)) (format_d 2 (day d))).

(** *** More of the specification's side *)

(** The bounds [datetime.date] keeps on its fields. *)
Definition valid_date (d : date) : Prop :=
  1 <= year d <= 9999 /\ 1 <= month d <= 12 /\ 1 <= day d <= 31.

(** The date segment, component by component. *)
Definition date_parts (d : date) : list str :=
  [format_d 4 (year d); format_d 2 (month d); format_d 2 (day d)].

(** Exactly [w] decimal digits. *)
Definition digits_of_width (w : nat) (s : str) : bool :=
  (length s =? w)%nat && forallb is_digit s.

(** The object after a run of [filepath] calls, one per tag, all made on
    the same day. *)
Definition filepath_run (self : FileManager) (tags : list str) (today : date)
  : FileManager :=
  fold_left (fun s t => snd (filepath s t today)) tags self.

End FileManager.

(** *** [class FileHandler] *)

Module FileHandler.
Import Py FileManager.

(** A character that [strftime] copies as it is: printable ASCII other
    than the percent sign. *)
Definition plain_char (c : ascii) : bool :=
  let n := code c in ((32 <=? n) && (n <=? 126) && negb (n =? 37))%N.

(** [t.strftime(fmt)], as far as it is the same on every platform: the
    directives [%Y] (for a year of four digits), [%m], [%d] and [%%], and
    plain characters.  [None] stands for any other format.  [pending] tells
    that the previous character was an unanswered percent sign. *)
Fixpoint strftime_from (pending : bool) (fmt : str) (d : date) : option str :=
  match fmt with
  | [] => if pending then None else Some []
  | c :: r =>
      let rest := strftime_from false r d in
      let put (s : str) := option_map (app s) rest in
      if pending then
        if ascii_dec c "Y" then
          (if 1000 <=? year d then put (decimal (year d)) else None)
        else if ascii_dec c "m" then put (format_d 2 (month d))
        else if ascii_dec c "d" then put (format_d 2 (day d))
        else if ascii_dec c "%" then put $"%"
        else None
      else if ascii_dec c "%" then strftime_from true r d
      else if plain_char c then put [c]
      else None
  end.

Definition strftime (fmt : str) (d : date) : option str := strftime_from false fmt d.

Record FileHandler : Type := {
  tag : str;
  filename : str;
  _file : Path
}.

(** [filename.strip().lower() if filename else "data"]: [None] and the
    empty string are the two values that count as false. *)
Definition base_name (filename : option str) : str :=
  match filename with
  | None => $"data"
  | Some [] => $"data"
  | Some f => lower (strip f)
  end.

(** [FileHandler(filename, tag)].  [filemanager] is the manager all
    handlers share (a class attribute); [day1] and [day2] are the dates of
    the two readings of the clock, the first for the name and the second
    inside [filepath].  The result is [None] when the format handed to
    [strftime] is outside the part modelled above. *)
Definition FileHandler_init (filemanager : FileManager.FileManager)
  (filename : option str) (tag : str) (day1 day2 : date)
  : option (result FileHandler * FileManager.FileManager) :=
  let filename := base_name filename in
  match strftime ($"%Y%m%d_" ++ filename) day1 with
  | None => None
  | Some name =>
      match filepath filemanager tag day2 with
      | (inr dir, filemanager') =>
          Some (ret {| tag := tag; filename := name; _file := truediv dir name |},
                filemanager')
      | (inl e, filemanager') => Some (raise e, filemanager')
      end
  end.

(** The date as [%Y%m%d] prints it. *)
Definition date_stamp (d : date) : str :=
  decimal (year d) ++ format_d 2 (month d) ++ format_d 2 (day d).

End FileHandler.

(* ================================================================== *)
(** * Part II: lemmas and theorems *)
(* ================================================================== *)

(** ** Facts about the string methods *)

Module PyFacts.
Import Py.

Ltac each_char c :=
  destruct c as [[] [] [] [] [] [] [] []]; vm_compute; try reflexivity; try congruence.

Lemma str_eqb_eq (a b : str) : str_eqb a b = true <-> a = b.
Proof.
  unfold str_eqb. destruct (list_eq_dec ascii_dec a b); split; congruence.
Qed.

Lemma str_eqb_refl (a : str) : str_eqb a a = true.
Proof. apply str_eqb_eq. reflexivity. Qed.

Lemma str_eqb_neq (a b : str) : str_eqb a b = false <-> a <> b.
Proof.
  unfold str_eqb. destruct (list_eq_dec ascii_dec a b); split; congruence.
Qed.

Lemma is_space_lower_char (c : ascii) : is_space (lower_char c) = is_space c.
Proof. each_char c. Qed.

Lemma lower_char_idem (c : ascii) : lower_char (lower_char c) = lower_char c.
Proof. each_char c. Qed.

Lemma lower_idem (s : str) : lower (lower s) = lower s.
Proof.
  unfold lower. rewrite map_map. apply map_ext. apply lower_char_idem.
Qed.

(** *** [lstrip], [rstrip], [strip] *)

Lemma lstrip_nonspace (c : ascii) (r : str) :
  is_space c = false -> lstrip (c :: r) = c :: r.
Proof. intros H. simpl. rewrite H. reflexivity. Qed.

Lemma lstrip_app_nonspace (a b : str) (c : ascii) :
  is_space c = false -> lstrip (a ++ c :: b) = lstrip a ++ c :: b.
Proof.
  intros Hc. induction a as [|x a IH]; simpl.
  - rewrite Hc. reflexivity.
  - destruct (is_space x); [exact IH | reflexivity].
Qed.

Lemma rstrip_app_nonspace (a b : str) (c : ascii) :
  is_space c = false -> rstrip (a ++ c :: b) = a ++ c :: rstrip b.
Proof.
  intros Hc. unfold rstrip.
  rewrite rev_app_distr. simpl. rewrite <- app_assoc. simpl.
  rewrite lstrip_app_nonspace by exact Hc.
  rewrite rev_app_distr. simpl. rewrite rev_involutive, <- app_assoc. reflexivity.
Qed.

Lemma rstrip_nil : rstrip [] = [].
Proof. reflexivity. Qed.

Lemma lstrip_idem (s : str) : lstrip (lstrip s) = lstrip s.
Proof.
  induction s as [|c r IH]; simpl; [reflexivity|].
  destruct (is_space c) eqn:E; [exact IH|]. simpl. rewrite E. reflexivity.
Qed.

Lemma rstrip_idem (s : str) : rstrip (rstrip s) = rstrip s.
Proof.
  unfold rstrip. rewrite rev_involutive, lstrip_idem. reflexivity.
Qed.

(** What [lstrip] returns is empty or starts with a character that is not
    white space. *)
Lemma lstrip_cases (s : str) :
  lstrip s = [] \/ exists c r, lstrip s = c :: r /\ is_space c = false.
Proof.
  induction s as [|c r IH]; simpl; [now left|].
  destruct (is_space c) eqn:E; [exact IH|]. right. now exists c, r.
Qed.

Lemma lstrip_rstrip_lstrip (s : str) : lstrip (rstrip (lstrip s)) = rstrip (lstrip s).
Proof.
  destruct (lstrip_cases s) as [H | (c & r & H & Hc)]; rewrite H.
  - reflexivity.
  - change (c :: r) with ([] ++ c :: r).
    rewrite rstrip_app_nonspace by exact Hc. simpl. rewrite Hc. reflexivity.
Qed.

Lemma strip_idem (s : str) : strip (strip s) = strip s.
Proof.
  unfold strip. rewrite lstrip_rstrip_lstrip, rstrip_idem. reflexivity.
Qed.

Lemma lstrip_lower (s : str) : lstrip (lower s) = lower (lstrip s).
Proof.
  induction s as [|c r IH]; simpl; [reflexivity|].
  rewrite is_space_lower_char. destruct (is_space c); [exact IH | reflexivity].
Qed.

Lemma rstrip_lower (s : str) : rstrip (lower s) = lower (rstrip s).
Proof.
  unfold rstrip, lower. rewrite <- map_rev.
  change (map lower_char (rev s)) with (lower (rev s)).
  rewrite lstrip_lower. unfold lower. rewrite map_rev. reflexivity.
Qed.

Lemma strip_lower (s : str) : strip (lower s) = lower (strip s).
Proof. unfold strip. rewrite lstrip_lower, rstrip_lower. reflexivity. Qed.

(** Normalising a tag twice is normalising it once. *)
Lemma lower_strip_idem (s : str) : lower (strip (lower (strip s))) = lower (strip s).
Proof. rewrite strip_lower, strip_idem, lower_idem. reflexivity. Qed.

(** White space at the ends *)

Lemma lstrip_blank (ws x : str) : blank ws -> lstrip (ws ++ x) = lstrip x.
Proof.
  induction 1 as [|c ws Hc _ IH]; simpl; [reflexivity|]. rewrite Hc. exact IH.
Qed.

Lemma lstrip_decomp (s : str) : exists ws, blank ws /\ s = ws ++ lstrip s.
Proof.
  induction s as [|c r (ws & Hws & IH)]; simpl.
  - exists []. split; [constructor | reflexivity].
  - destruct (is_space c) eqn:E.
    + exists (c :: ws). split; [constructor; assumption|]. simpl. congruence.
    + exists []. split; [constructor | reflexivity].
Qed.

Lemma rstrip_blank (ws : str) : blank ws -> rstrip ws = [].
Proof.
  intros H. unfold rstrip.
  rewrite <- (app_nil_r (rev ws)), lstrip_blank; [reflexivity|].
  apply Forall_rev, H.
Qed.

Lemma lstrip_In (x : ascii) (s : str) : In x (lstrip s) -> In x s.
Proof.
  induction s as [|c r IH]; simpl; [tauto|].
  destruct (is_space c); [intros H; right; apply IH, H | tauto].
Qed.

Lemma rstrip_In (x : ascii) (s : str) : In x (rstrip s) -> In x s.
Proof.
  unfold rstrip. intros H. apply in_rev in H. apply lstrip_In in H.
  apply in_rev. exact H.
Qed.

(** *** The last element of a list *)

Lemma tl_on_last {A} (f : A -> A) (l : list A) : tl (on_last f l) = on_last f (tl l).
Proof. destruct l as [|x [|y r]]; reflexivity. Qed.

Lemma on_last_snoc {A} (f : A -> A) (l : list A) (x : A) :
  on_last f (l ++ [x]) = l ++ [f x].
Proof.
  induction l as [|y r IH]; [reflexivity|].
  change ((y :: r) ++ [x]) with (y :: (r ++ [x])). cbn [on_last].
  rewrite IH. destruct (r ++ [x]) eqn:E; [|reflexivity].
  now apply app_eq_nil in E as [_ E].
Qed.

Lemma on_last_map {A} (f g h : A -> A) (l : list A) :
  (forall x, f (g x) = g (h x)) -> on_last f (map g l) = map g (on_last h l).
Proof.
  intros Hc. induction l as [|x r IH]; [reflexivity|].
  destruct r as [|y r]; cbn [map on_last] in *; [rewrite Hc; reflexivity|].
  rewrite IH. reflexivity.
Qed.

(** *** [split] *)

Section Split.
Variable sep : ascii.

Lemma split_free (a : str) : ~ In sep a -> split sep a = [a].
Proof.
  induction a as [|c r IH]; simpl; intros Hn; [reflexivity|].
  destruct (ascii_dec c sep) as [->|_]; [tauto|].
  rewrite IH by tauto. reflexivity.
Qed.

Lemma split_app_sep (a b : str) :
  ~ In sep a -> split sep (a ++ sep :: b) = a :: split sep b.
Proof.
  induction a as [|c r IH]; simpl; intros Hn.
  - destruct (ascii_dec sep sep); [reflexivity | congruence].
  - destruct (ascii_dec c sep) as [->|_]; [tauto|].
    rewrite IH by tauto. reflexivity.
Qed.

(** A string is free of the separator, or a separator-free token followed
    by the separator and the rest. *)
Lemma first_sep (s : str) :
  ~ In sep s \/ exists a b, s = a ++ sep :: b /\ ~ In sep a.
Proof.
  induction s as [|c r IH]; [left; simpl; tauto|].
  destruct (ascii_dec c sep) as [->|Hne].
  - right. exists [], r. simpl. tauto.
  - destruct IH as [Hfree | (a & b & -> & Ha)].
    + left. simpl. intros [H|H]; [congruence | tauto].
    + right. exists (c :: a), b. split; [reflexivity|].
      simpl. intros [H|H]; [congruence | tauto].
Qed.

(** Induction over the tokens of a string. *)
Lemma tokens_ind (P : str -> Prop) :
  (forall a, ~ In sep a -> P a) ->
  (forall a b, ~ In sep a -> P b -> P (a ++ sep :: b)) ->
  forall s, P s.
Proof.
  intros Hfree Hstep s.
  remember (length s) as n eqn:Hn. revert s Hn.
  induction n as [n IH] using lt_wf_ind. intros s Hn.
  destruct (first_sep s) as [H | (a & b & -> & Ha)]; [apply Hfree, H|].
  apply Hstep; [exact Ha|].
  apply (IH (length b)); [|reflexivity].
  subst n. rewrite length_app. simpl. lia.
Qed.

Lemma split_not_nil (s : str) : split sep s <> [].
Proof.
  induction s as [|c r IH]; simpl; [discriminate|].
  destruct (ascii_dec c sep); [discriminate|].
  destruct (split sep r); [congruence | discriminate].
Qed.

(** A trailing separator gives an empty last token. *)
Lemma split_trailing_sep (s : str) : split sep (s ++ [sep]) = split sep s ++ [[]].
Proof.
  induction s as [a Ha | a b Ha IH] using tokens_ind.
  - rewrite split_app_sep by exact Ha. rewrite (split_free a Ha). reflexivity.
  - rewrite <- app_assoc. simpl.
    rewrite (split_app_sep a (b ++ [sep]) Ha), (split_app_sep a b Ha), IH.
    reflexivity.
Qed.

(** [strip] only touches the first and the last token. *)
Hypothesis sep_not_space : is_space sep = false.

Lemma tl_split_lstrip (s : str) : tl (split sep (lstrip s)) = tl (split sep s).
Proof.
  destruct (first_sep s) as [Hfree | (a & b & -> & Ha)].
  - rewrite !split_free; [reflexivity | exact Hfree|].
    intros H. apply Hfree, lstrip_In, H.
  - rewrite lstrip_app_nonspace by exact sep_not_space.
    rewrite !split_app_sep; [reflexivity | exact Ha|].
    intros H. apply Ha, lstrip_In, H.
Qed.

Lemma split_rstrip (s : str) : split sep (rstrip s) = on_last rstrip (split sep s).
Proof.
  induction s as [a Ha | a b Ha IH] using tokens_ind.
  - rewrite !split_free; [reflexivity | exact Ha | intros H; apply Ha, rstrip_In, H].
  - rewrite rstrip_app_nonspace by exact sep_not_space.
    rewrite !split_app_sep by exact Ha. rewrite IH.
    cbn [on_last]. destruct (split sep b) eqn:E; [|reflexivity].
    now apply split_not_nil in E.
Qed.

Lemma tl_split_strip (s : str) :
  tl (split sep (strip s)) = on_last rstrip (tl (split sep s)).
Proof.
  unfold strip. rewrite split_rstrip, tl_on_last, tl_split_lstrip. reflexivity.
Qed.

End Split.

Lemma mapM_map {A B C} (f : B -> result C) (g : A -> B) (l : list A) :
  mapM f (map g l) = mapM (fun a => f (g a)) l.
Proof.
  induction l as [|a l IH]; simpl; [reflexivity|]. rewrite IH. reflexivity.
Qed.

(** [mapM] returns when the function returns on every element... *)
Lemma mapM_all {A B} (f : A -> result B) (g : A -> B) (l : list A) :
  (forall a, In a l -> f a = inr (g a)) -> mapM f l = inr (map g l).
Proof.
  induction l as [|a l IH]; intros H; simpl; [reflexivity|].
  rewrite (H a) by now left. cbn [bind]. rewrite IH; [reflexivity|].
  intros b Hb. apply H. now right.
Qed.

(** ... and raises what the function raises when it can only raise that. *)
Lemma mapM_some_raise {A B} (f : A -> result B) (e : exn) (l : list A) :
  (forall a e', f a = inl e' -> e' = e) ->
  (exists a, In a l /\ f a = inl e) -> mapM f l = inl e.
Proof.
  intros Honly. induction l as [|a l IH]; intros (x & Hin & Hx); [destruct Hin|].
  simpl. destruct (f a) as [e'|b] eqn:E.
  - rewrite (Honly a e' E). reflexivity.
  - cbn [bind]. rewrite IH; [reflexivity|].
    destruct Hin as [->|Hin]; [congruence|]. exists x. tauto.
Qed.

(** *** [replace] *)

Lemma startswith_app (p r : str) : startswith p (p ++ r) = true.
Proof.
  induction p as [|c p IH]; simpl; [reflexivity|].
  destruct (ascii_dec c c); [exact IH | congruence].
Qed.

Lemma startswith_true (p s : str) :
  startswith p s = true -> exists r, s = p ++ r.
Proof.
  revert s. induction p as [|c p IH]; intros s H.
  - exists s. reflexivity.
  - destruct s as [|x s]; simpl in H; [discriminate|].
    destruct (ascii_dec c x) as [->|]; [|discriminate].
    destruct (IH s H) as [r ->]. exists r. reflexivity.
Qed.

Lemma replace_from_skip (old new p r : str) :
  replace_from old new (length p) (p ++ r) = replace_from old new 0 r.
Proof. induction p as [|c p IH]; simpl; [reflexivity | exact IH]. Qed.

Lemma replace_match (old new r : str) :
  old <> [] -> replace old new (old ++ r) = new ++ replace old new r.
Proof.
  intros Hne. destruct old as [|c o]; [congruence|].
  unfold replace. change ((c :: o) ++ r) with (c :: (o ++ r)).
  cbn [replace_from]. change (c :: o ++ r) with ((c :: o) ++ r).
  rewrite startswith_app.
  replace (length (c :: o) - 1)%nat with (length o) by (simpl; lia).
  rewrite replace_from_skip. reflexivity.
Qed.

Section Replace.
Variables old new : str.
Hypothesis old_not_empty : old <> [].

Lemma replace_other (c : ascii) (r : str) :
  startswith old (c :: r) = false ->
  replace old new (c :: r) = c :: replace old new r.
Proof. unfold replace. simpl replace_from. intros ->. reflexivity. Qed.

(** A string in which [old] does not occur is left alone. *)
Lemma replace_absent (s : str) :
  (forall a b, s <> a ++ old ++ b) -> replace old new s = s.
Proof.
  induction s as [|c r IH]; intros Habs; [reflexivity|].
  rewrite replace_other.
  - rewrite IH; [reflexivity|].
    intros a b ->. apply (Habs (c :: a) b). reflexivity.
  - destruct (startswith old (c :: r)) eqn:E; [|reflexivity].
    apply startswith_true in E as [t E]. exfalso. apply (Habs [] t). exact E.
Qed.

(** Every character of the result comes from the string or from [new]. *)
Lemma replace_from_chars (x : ascii) (s : str) (k : nat) :
  In x (replace_from old new k s) -> In x s \/ In x new.
Proof.
  revert k. induction s as [|c r IH]; intros k H; simpl in H; [tauto|].
  destruct k as [|k].
  - destruct (startswith old (c :: r)).
    + apply in_app_or in H as [H|H]; [now right|].
      apply IH in H as [H|H]; [left; now right | now right].
    + destruct H as [->|H]; [left; now left|].
      apply IH in H as [H|H]; [left; now right | now right].
  - apply IH in H as [H|H]; [left; now right | now right].
Qed.

Variable sep : ascii.
Hypothesis old_free : ~ In sep old.
Hypothesis new_free : ~ In sep new.

Lemma replace_free (a : str) : ~ In sep a -> ~ In sep (replace old new a).
Proof.
  intros Ha H. apply replace_from_chars in H. tauto.
Qed.

(** [old] cannot reach over a separator. *)
Lemma startswith_app_sep (a b : str) :
  startswith old (a ++ sep :: b) = startswith old a.
Proof.
  clear old_not_empty new_free. revert a.
  induction old as [|c o IH]; intros a; [reflexivity|].
  assert (Hc : c <> sep) by (intros ->; apply old_free; now left).
  assert (Ho : ~ In sep o) by (intros H; apply old_free; now right).
  destruct a as [|x a]; simpl.
  - destruct (ascii_dec c sep); [congruence | reflexivity].
  - destruct (ascii_dec c x); [|reflexivity]. apply IH, Ho.
Qed.

Lemma replace_app_sep (a b : str) :
  replace old new (a ++ sep :: b)
  = replace old new a ++ sep :: replace old new b.
Proof.
  remember (length a) as n eqn:Hn. revert a Hn.
  induction n as [n IH] using lt_wf_ind. intros a Hn.
  destruct a as [|c r].
  - simpl. rewrite replace_other; [reflexivity|].
    change (sep :: b) with ([] ++ sep :: b). rewrite startswith_app_sep.
    destruct old; [congruence | reflexivity].
  - destruct (startswith old (c :: r)) eqn:E.
    + apply startswith_true in E as [t E]. rewrite E.
      rewrite <- app_assoc, !replace_match, <- app_assoc by exact old_not_empty.
      f_equal. apply (IH (length t)); [|reflexivity].
      subst n. rewrite E, length_app.
      destruct old; [congruence | simpl; lia].
    + rewrite (replace_other c r E).
      change ((c :: r) ++ sep :: b) with (c :: (r ++ sep :: b)).
      rewrite replace_other.
      * simpl. f_equal. apply (IH (length r)); [subst n; simpl; lia | reflexivity].
      * change (c :: r ++ sep :: b) with ((c :: r) ++ sep :: b).
        rewrite startswith_app_sep. exact E.
Qed.

(** Replacing in the whole string is replacing in each token. *)
Lemma split_replace (s : str) :
  split sep (replace old new s) = map (replace old new) (split sep s).
Proof.
  induction s as [a Ha | a b Ha IH] using (tokens_ind sep).
  - rewrite !split_free; [reflexivity | exact Ha | apply replace_free, Ha].
  - rewrite replace_app_sep, !split_app_sep; [|exact Ha | apply replace_free, Ha].
    simpl. rewrite IH. reflexivity.
Qed.

End Replace.

(** *** White space at the end of a string, and [replace] *)

Lemma rstrip_decomp (t : str) : exists ws, blank ws /\ t = rstrip t ++ ws.
Proof.
  destruct (lstrip_decomp (rev t)) as (ws & Hws & Ht).
  exists (rev ws). split; [apply Forall_rev, Hws|].
  unfold rstrip. rewrite <- rev_app_distr, <- Ht, rev_involutive. reflexivity.
Qed.

(** What [rstrip] returns is empty or ends with a character that is not
    white space. *)
Lemma rstrip_cases (t : str) :
  rstrip t = [] \/ exists a c, rstrip t = a ++ [c] /\ is_space c = false.
Proof.
  unfold rstrip. destruct (lstrip_cases (rev t)) as [H | (c & r & H & Hc)]; rewrite H.
  - now left.
  - right. exists (rev r), c. split; [reflexivity | exact Hc].
Qed.

Lemma rstrip_app_blank (x ws : str) : blank ws -> rstrip (x ++ ws) = rstrip x.
Proof.
  intros H. unfold rstrip. rewrite rev_app_distr, lstrip_blank; [reflexivity|].
  apply Forall_rev, H.
Qed.

Lemma rstrip_ends (a : str) (c : ascii) : is_space c = false -> rstrip (a ++ [c]) = a ++ [c].
Proof. intros Hc. rewrite rstrip_app_nonspace by exact Hc. reflexivity. Qed.

Section ReplaceStrip.
Variables old new : str.
Hypothesis old_not_empty : old <> [].
Hypothesis new_not_empty : new <> [].
Hypothesis old_tight : Forall (fun c => is_space c = false) old.
Hypothesis new_tight : Forall (fun c => is_space c = false) new.

Lemma space_not_in (c : ascii) (l : str) :
  Forall (fun x => is_space x = false) l -> is_space c = true -> ~ In c l.
Proof.
  intros Hl Hc Hin. rewrite Forall_forall in Hl. specialize (Hl c Hin). congruence.
Qed.

(** No occurrence of [old] reaches over white space. *)
Lemma replace_app_space (a b : str) (c : ascii) :
  is_space c = true ->
  replace old new (a ++ c :: b) = replace old new a ++ c :: replace old new b.
Proof.
  intros Hc. apply replace_app_sep; [exact old_not_empty|].
  apply space_not_in; assumption.
Qed.

Lemma replace_blank (ws : str) : blank ws -> replace old new ws = ws.
Proof.
  induction 1 as [|c ws Hc _ IH]; [reflexivity|].
  change (c :: ws) with ([] ++ c :: ws) at 1.
  rewrite (replace_app_space [] ws c Hc), IH. reflexivity.
Qed.

Lemma replace_app_blank (a ws : str) :
  blank ws -> replace old new (a ++ ws) = replace old new a ++ ws.
Proof.
  intros H. destruct H as [|c ws Hc Hws].
  - rewrite !app_nil_r. reflexivity.
  - rewrite (replace_app_space a ws c Hc), (replace_blank ws Hws). reflexivity.
Qed.

(** A string that ends with a character other than white space still does
    after [replace]. *)
Lemma replace_ends (b : str) :
  (exists a c, b = a ++ [c] /\ is_space c = false) ->
  exists a c, replace old new b = a ++ [c] /\ is_space c = false.
Proof.
  remember (length b) as n eqn:Hn. revert b Hn.
  induction n as [n IH] using lt_wf_ind. intros b Hn (a & c & Hb & Hc).
  destruct b as [|c0 r]; [now destruct a|].
  destruct (startswith old (c0 :: r)) eqn:E.
  - apply startswith_true in E as [t E]. rewrite E, (replace_match old new t old_not_empty).
    destruct t as [|x t'].
    + destruct (exists_last new_not_empty) as (n' & c' & Hnew).
      exists n', c'. rewrite app_nil_r. split; [exact Hnew|].
      rewrite Forall_forall in new_tight. apply new_tight.
      rewrite Hnew. apply in_or_app. right. now left.
    + destruct (IH (length (x :: t'))) with (b := x :: t') as (a' & c' & Hr & Hc').
      * subst n. rewrite E, length_app. destruct old; [congruence | simpl; lia].
      * reflexivity.
      * destruct (exists_last (l := x :: t') ltac:(discriminate)) as (t0 & c1 & Ht).
        exists t0, c1. split; [exact Ht|].
        rewrite E, Ht, app_assoc in Hb. apply app_inj_tail in Hb as [_ ->]. exact Hc.
      * exists (new ++ a'), c'. rewrite Hr, app_assoc. split; [reflexivity | exact Hc'].
  - rewrite (replace_other old new c0 r E).
    destruct r as [|x r'].
    + exists [], c0. split; [reflexivity|].
      destruct a as [|y [|z a']]; [injection Hb as <-; exact Hc | discriminate Hb | discriminate Hb].
    + destruct (IH (length (x :: r'))) with (b := x :: r') as (a' & c' & Hr & Hc').
      * subst n. simpl. lia.
      * reflexivity.
      * destruct (exists_last (l := x :: r') ltac:(discriminate)) as (t0 & c1 & Ht).
        exists t0, c1. split; [exact Ht|].
        rewrite Ht in Hb. change (c0 :: t0 ++ [c1]) with ((c0 :: t0) ++ [c1]) in Hb.
        apply app_inj_tail in Hb as [_ ->]. exact Hc.
      * exists (c0 :: a'), c'. rewrite Hr. split; [reflexivity | exact Hc'].
Qed.

(** [replace] and [rstrip] can be taken in either order. *)
Lemma rstrip_replace (t : str) : rstrip (replace old new t) = replace old new (rstrip t).
Proof.
  destruct (rstrip_decomp t) as (ws & Hws & Ht).
  rewrite Ht at 1. rewrite (replace_app_blank _ ws Hws), (rstrip_app_blank _ ws Hws).
  destruct (rstrip_cases t) as [H | H].
  - rewrite H. reflexivity.
  - destruct (replace_ends (rstrip t) H) as (a & c & Hr & Hc).
    rewrite Hr. apply rstrip_ends, Hc.
Qed.

End ReplaceStrip.

(** *** [float] and [int] on a [str] *)

Lemma is_num_space_space (c : ascii) : is_num_space c = true -> is_space c = true.
Proof. each_char c. Qed.

Lemma num_lstrip_blank (ws x : str) :
  Forall (fun c => is_num_space c = true) ws -> num_lstrip (ws ++ x) = num_lstrip x.
Proof.
  induction 1 as [|c ws Hc _ IH]; simpl; [reflexivity|]. rewrite Hc. exact IH.
Qed.

Lemma num_lstrip_decomp (s : str) :
  exists ws, Forall (fun c => is_num_space c = true) ws /\ s = ws ++ num_lstrip s.
Proof.
  induction s as [|c r (ws & Hws & IH)]; simpl.
  - exists []. split; [constructor | reflexivity].
  - destruct (is_num_space c) eqn:E.
    + exists (c :: ws). split; [constructor; assumption|]. simpl. congruence.
    + exists []. split; [constructor | reflexivity].
Qed.

(** A string is the text that the conversion reads, between the white space
    that it skips. *)
Lemma num_strip_decomp (s : str) :
  exists w1 w2,
    Forall (fun c => is_num_space c = true) w1
    /\ Forall (fun c => is_num_space c = true) w2
    /\ s = w1 ++ num_strip s ++ w2.
Proof.
  destruct (num_lstrip_decomp s) as (w1 & H1 & Hs).
  destruct (num_lstrip_decomp (rev (num_lstrip s))) as (w & Hw & Hr).
  exists w1, (rev w). split; [exact H1|]. split; [apply Forall_rev, Hw|].
  unfold num_strip. rewrite <- rev_app_distr, <- Hr, rev_involutive. exact Hs.
Qed.

Lemma num_lstrip_tight (body : str) :
  Forall (fun c => is_num_space c = false) body -> num_lstrip body = body.
Proof. intros H. destruct H as [|c r Hc _]; simpl; [|rewrite Hc]; reflexivity. Qed.

Lemma num_strip_tight (w1 w2 body : str) :
  Forall (fun c => is_num_space c = true) w1 ->
  Forall (fun c => is_num_space c = true) w2 ->
  Forall (fun c => is_num_space c = false) body ->
  num_strip (w1 ++ body ++ w2) = body.
Proof.
  intros H1 H2 Hb. unfold num_strip.
  rewrite (num_lstrip_blank w1 _ H1).
  destruct body as [|c0 m]; simpl app.
  - destruct (num_lstrip_decomp w2) as (ws & _ & _).
    rewrite <- (app_nil_r w2) at 1. rewrite (num_lstrip_blank w2 [] H2). reflexivity.
  - change (c0 :: m ++ w2) with ((c0 :: m) ++ w2).
    replace (num_lstrip ((c0 :: m) ++ w2)) with ((c0 :: m) ++ w2)
      by (inversion Hb as [|? ? Hc0 _]; simpl; rewrite Hc0; reflexivity).
    rewrite rev_app_distr, (num_lstrip_blank (rev w2) _ (Forall_rev H2)).
    rewrite (num_lstrip_tight _ (Forall_rev Hb)). apply rev_involutive.
Qed.

(** White space is no part of a number. *)
Lemma space_no_number (c : ascii) :
  is_space c = true ->
  is_digit c = false /\ is_e c = false /\ c <> "."%char /\ c <> "_"%char
  /\ c <> "+"%char /\ c <> "-"%char.
Proof.
  destruct c as [[] [] [] [] [] [] [] []]; vm_compute; intros H; try discriminate H;
    repeat split; discriminate.
Qed.

Lemma fstep_nonspace (st : fstate) (a : facc) (c : ascii) :
  fstep st a c <> None -> is_space c = false.
Proof.
  intros H. destruct (is_space c) eqn:E; [|reflexivity]. exfalso. apply H.
  destruct (space_no_number c E) as (Hd & He & Hdot & Hu & Hp & Hm).
  unfold fstep. rewrite Hd, He.
  destruct (ascii_dec c "."); [contradiction|].
  destruct (ascii_dec c "_"); [contradiction|].
  destruct (ascii_dec c "+"); [contradiction|].
  destruct (ascii_dec c "-"); [contradiction|].
  destruct st; reflexivity.
Qed.

Lemma fscan_nonspace (s : str) (st : fstate) (a a' : facc) :
  fscan st a s = Some a' -> Forall (fun c => is_space c = false) s.
Proof.
  revert st a. induction s as [|c r IH]; intros st a H; [constructor|].
  cbn [fscan] in H. destruct (fstep st a c) as [[st1 a1]|] eqn:E; [|discriminate].
  constructor; [apply (fstep_nonspace st a); congruence | apply (IH st1 a1 H)].
Qed.

Lemma lower_nonspace (r : str) :
  Forall (fun c => is_space c = false) (lower r) -> Forall (fun c => is_space c = false) r.
Proof.
  induction r as [|c r IH]; intros H; [constructor|].
  inversion H as [|? ? Hc Hr]; subst. rewrite is_space_lower_char in Hc.
  constructor; [exact Hc | apply IH, Hr].
Qed.

(** What [float] accepts, once the white space around it is left out, is
    not empty and holds no white space of any kind. *)
Lemma py_float_body (t : str) (v : float) :
  py_float t = inr v ->
  num_strip t <> [] /\ Forall (fun c => is_space c = false) (num_strip t).
Proof.
  unfold py_float. intros H.
  assert (Hr : Forall (fun c => is_space c = false) (snd (split_sign (num_strip t)))
               /\ snd (split_sign (num_strip t)) <> []).
  { destruct (split_sign (num_strip t)) as [neg r]. cbn [snd].
    destruct (str_eqb (lower r) $"inf") eqn:E1.
    { apply str_eqb_eq in E1. split; [|intros ->; discriminate E1].
      apply lower_nonspace. rewrite E1. repeat constructor. }
    destruct (str_eqb (lower r) $"infinity") eqn:E2.
    { apply str_eqb_eq in E2. split; [|intros ->; discriminate E2].
      apply lower_nonspace. rewrite E2. repeat constructor. }
    destruct (str_eqb (lower r) $"nan") eqn:E3.
    { apply str_eqb_eq in E3. split; [|intros ->; discriminate E3].
      apply lower_nonspace. rewrite E3. repeat constructor. }
    simpl in H. destruct (fscan FStart facc0 r) as [a|] eqn:E; [|discriminate H].
    split; [apply (fscan_nonspace r FStart facc0 a E)|].
    intros ->. discriminate E. }
  destruct Hr as [Hall Hne].
  destruct (num_strip t) as [|c r]; [now contradiction Hne|].
  split; [discriminate|].
  unfold split_sign in Hall. cbn [snd] in Hall.
  destruct (ascii_dec c "-") as [->|_]; [constructor; [reflexivity | exact Hall]|].
  destruct (ascii_dec c "+") as [->|_]; [constructor; [reflexivity | exact Hall]|].
  exact Hall.
Qed.

(** White space that [strip] takes off the end of a number changes nothing
    for [float]. *)
Lemma py_float_rstrip (t : str) (v : float) :
  py_float t = inr v -> py_float (rstrip t) = inr v.
Proof.
  intros H. destruct (py_float_body t v H) as [Hne Hall].
  destruct (num_strip_decomp t) as (w1 & w2 & H1 & H2 & Ht).
  assert (Hnum : Forall (fun c => is_num_space c = false) (num_strip t)).
  { apply (Forall_impl _ (P := fun c => is_space c = false)); [|exact Hall].
    intros c Hc. destruct (is_num_space c) eqn:E; [|reflexivity].
    apply is_num_space_space in E. congruence. }
  assert (Hr : rstrip t = w1 ++ num_strip t).
  { destruct (exists_last Hne) as (b & c & Hb).
    assert (Hc : is_space c = false).
    { rewrite Forall_forall in Hall. apply Hall. rewrite Hb.
      apply in_or_app. right. now left. }
    rewrite Ht at 1. rewrite Hb, <- !app_assoc. cbn [app].
    rewrite (app_assoc w1 b (c :: w2)), (rstrip_app_nonspace _ w2 c Hc).
    rewrite rstrip_blank, <- app_assoc; [reflexivity|].
    apply (Forall_impl _ is_num_space_space), H2. }
  assert (Hs : num_strip (rstrip t) = num_strip t).
  { rewrite Hr. rewrite <- (app_nil_r (num_strip t)) at 1.
    apply (num_strip_tight w1 [] _ H1); [constructor | exact Hnum]. }
  unfold py_float in *. rewrite Hs. exact H.
Qed.

Lemma py_float_raises (t : str) (e : exn) : py_float t = inl e -> e = ValueError.
Proof.
  unfold py_float. destruct (split_sign (num_strip t)) as [neg r].
  destruct (str_eqb (lower r) $"inf" || str_eqb (lower r) $"infinity"); [discriminate|].
  destruct (str_eqb (lower r) $"nan"); [discriminate|].
  destruct (fscan FStart facc0 r); [discriminate|].
  intros [= <-]. reflexivity.
Qed.

Lemma count_num_lstrip (x : ascii) (s : str) :
  is_num_space x = false -> count_occ ascii_dec (num_lstrip s) x = count_occ ascii_dec s x.
Proof.
  intros Hx. induction s as [|c r IH]; [reflexivity|]. cbn [num_lstrip].
  destruct (is_num_space c) eqn:E; [|reflexivity].
  rewrite IH. symmetry. apply count_occ_cons_neq. congruence.
Qed.

Lemma count_num_strip (x : ascii) (s : str) :
  is_num_space x = false -> count_occ ascii_dec (num_strip s) x = count_occ ascii_dec s x.
Proof.
  intros Hx. unfold num_strip.
  rewrite count_occ_rev, count_num_lstrip, count_occ_rev, count_num_lstrip by exact Hx.
  reflexivity.
Qed.

Lemma count_split_sign (x : ascii) (s : str) :
  x <> "+"%char -> x <> "-"%char -> count_occ ascii_dec (snd (split_sign s)) x = count_occ ascii_dec s x.
Proof.
  intros Hp Hm. destruct s as [|c r]; [reflexivity|]. unfold split_sign.
  destruct (ascii_dec c "-") as [->|_]; cbn [snd].
  - symmetry. apply count_occ_cons_neq. congruence.
  - destruct (ascii_dec c "+") as [->|_]; cbn [snd]; [|reflexivity].
    symmetry. apply count_occ_cons_neq. congruence.
Qed.

Lemma count_lower (x : ascii) (s : str) :
  (count_occ ascii_dec s x <= count_occ ascii_dec (lower s) (lower_char x))%nat.
Proof.
  induction s as [|c r IH]; [simpl; lia|].
  unfold lower in *. cbn [map].
  destruct (ascii_dec c x) as [->|Hne].
  - rewrite !count_occ_cons_eq by reflexivity. lia.
  - rewrite (count_occ_cons_neq _ r Hne).
    destruct (ascii_dec (lower_char c) (lower_char x)) as [E|E].
    + rewrite (count_occ_cons_eq _ _ E). lia.
    + rewrite (count_occ_cons_neq _ _ E). exact IH.
Qed.

(** The scanner of decimal numbers never steps over the letter F. *)
Lemma fstep_not_F (st : fstate) (a : facc) (c : ascii) :
  fstep st a c <> None -> c <> "F"%char.
Proof.
  intros H ->. apply H. destruct st; reflexivity.
Qed.

Lemma fscan_no_F (s : str) (st : fstate) (a a' : facc) :
  fscan st a s = Some a' -> count_occ ascii_dec s "F"%char = 0%nat.
Proof.
  revert st a. induction s as [|c r IH]; intros st a H; [reflexivity|].
  cbn [fscan] in H. destruct (fstep st a c) as [[st1 a1]|] eqn:E; [|discriminate].
  rewrite count_occ_cons_neq; [apply (IH st1 a1 H)|].
  apply (fstep_not_F st a). congruence.
Qed.

(** What [float] accepts holds the capital letter F at most once. *)
Lemma py_float_few_F (t : str) (v : float) :
  py_float t = inr v -> (count_occ ascii_dec t "F"%char <= 1)%nat.
Proof.
  unfold py_float. intros H.
  rewrite <- (count_num_strip "F"%char t) by reflexivity.
  rewrite <- (count_split_sign "F"%char (num_strip t)) by discriminate.
  destruct (split_sign (num_strip t)) as [neg r]. cbn [snd].
  pose proof (count_lower "F"%char r) as Hl. change (lower_char "F"%char) with "f"%char in Hl.
  destruct (str_eqb (lower r) $"inf") eqn:E1.
  { apply str_eqb_eq in E1. rewrite E1 in Hl. exact Hl. }
  destruct (str_eqb (lower r) $"infinity") eqn:E2.
  { apply str_eqb_eq in E2. rewrite E2 in Hl. exact Hl. }
  destruct (str_eqb (lower r) $"nan") eqn:E3.
  { apply str_eqb_eq in E3. rewrite E3 in Hl. simpl in Hl. lia. }
  simpl in H. destruct (fscan FStart facc0 r) as [a|] eqn:E; [|discriminate].
  rewrite (fscan_no_F r FStart facc0 a E). lia.
Qed.

(** So the sentinel never occurs inside it, and [replace] leaves it alone. *)
Lemma replace_sentinel_numeric (t new : str) (v : float) :
  py_float t = inr v -> replace $"FFFFFFF" new t = t.
Proof.
  intros H. apply replace_absent. intros a b ->.
  apply py_float_few_F in H. rewrite !count_occ_app in H. simpl in H. lia.
Qed.

Lemma py_int_raises (t : str) (e : exn) : py_int t = inl e -> e = ValueError.
Proof.
  unfold py_int. destruct (split_sign (num_strip t)) as [neg r].
  destruct (digitpart 0 false r); [|intros [= <-]; reflexivity].
  destruct (length (filter is_digit r) <=? max_str_digits)%nat; [discriminate|].
  intros [= <-]. reflexivity.
Qed.

(** [l[-k]] is the element at position [k - 1] from the end. *)
Lemma index_from_end {A} (l : list A) (k : nat) :
  index l (- Z.of_nat (S k))
  = match from_end k l with
    | Some a => inr a
    | None => inl IndexError
    end.
Proof.
  unfold index, from_end.
  replace (- Z.of_nat (S k) <? 0) with true by (symmetry; apply Z.ltb_lt; lia).
  destruct (Nat.ltb_spec k (length l)) as [Hk | Hk].
  - replace (0 <=? - Z.of_nat (S k) + Z.of_nat (length l)) with true
      by (symmetry; apply Z.leb_le; lia).
    replace (- Z.of_nat (S k) + Z.of_nat (length l) <? Z.of_nat (length l)) with true
      by (symmetry; apply Z.ltb_lt; lia).
    cbn [andb]. rewrite nth_error_rev.
    replace (k <? length l)%nat with true by (symmetry; apply Nat.ltb_lt; exact Hk).
    replace (Z.to_nat (- Z.of_nat (S k) + Z.of_nat (length l))) with (length l - S k)%nat by lia.
    destruct (nth_error l (length l - S k)) eqn:E; reflexivity.
  - replace (0 <=? - Z.of_nat (S k) + Z.of_nat (length l)) with false
      by (symmetry; apply Z.leb_gt; lia).
    cbn [andb].
    replace (nth_error (rev l) k) with (@None A); [reflexivity|].
    symmetry. apply nth_error_None. rewrite length_rev. exact Hk.
Qed.

(** *** [dict] *)

Section Dict.
Context {V : Type}.
Implicit Types (d o : dict V) (k : str) (v : V).

Lemma dict_get_set_same d k v : dict_get (dict_set d k v) k = Some v.
Proof.
  induction d as [|[k' v'] r IH]; simpl.
  - rewrite str_eqb_refl. reflexivity.
  - destruct (str_eqb k' k) eqn:E; simpl; rewrite E; [reflexivity | exact IH].
Qed.

Lemma dict_get_set_other d k k' v :
  k' <> k -> dict_get (dict_set d k' v) k = dict_get d k.
Proof.
  intros Hne. induction d as [|[k0 v0] r IH]; simpl.
  - apply str_eqb_neq in Hne. rewrite Hne. reflexivity.
  - destruct (str_eqb k0 k') eqn:E; simpl.
    + apply str_eqb_eq in E. subst k0.
      apply str_eqb_neq in Hne. rewrite Hne. reflexivity.
    + destruct (str_eqb k0 k); [reflexivity | exact IH].
Qed.

Lemma dict_set_new d k v :
  ~ In k (dict_keys d) -> dict_set d k v = d ++ [(k, v)].
Proof.
  induction d as [|[k' v'] r IH]; simpl; intros Hn; [reflexivity|].
  destruct (str_eqb k' k) eqn:E.
  - apply str_eqb_eq in E. tauto.
  - rewrite IH by tauto. reflexivity.
Qed.

Lemma dict_get_update_other d o k :
  ~ In k (dict_keys o) -> dict_get (dict_update d o) k = dict_get d k.
Proof.
  unfold dict_update. revert d.
  induction o as [|[k' v'] r IH]; simpl; intros d Hn; [reflexivity|].
  rewrite IH by tauto. apply dict_get_set_other. tauto.
Qed.

Lemma dict_get_update d o k v :
  NoDup (dict_keys o) -> dict_get o k = Some v ->
  dict_get (dict_update d o) k = Some v.
Proof.
  unfold dict_update. revert d.
  induction o as [|[k' v'] r IH]; simpl; intros d Hnd Hg; [discriminate|].
  inversion Hnd as [|? ? Hnotin Hnd']; subst.
  destruct (str_eqb k' k) eqn:E.
  - apply str_eqb_eq in E. subst k'. injection Hg as ->.
    change (fold_left (fun acc kv => dict_set acc (fst kv) (snd kv)) r (dict_set d k v))
      with (dict_update (dict_set d k v) r).
    rewrite dict_get_update_other by exact Hnotin.
    apply dict_get_set_same.
  - apply IH; assumption.
Qed.

End Dict.

End PyFacts.

(* ------------------------------------------------------------------ *)
(** ** [FileManager.filepath] *)

Module FileManagerSpec.
Import Py PyFacts FileManager.

Lemma date_eqb_refl (d : date) : date_eqb d d = true.
Proof. unfold date_eqb. rewrite !Z.eqb_refl. reflexivity. Qed.

Lemma date_eqb_eq (a b : date) : date_eqb a b = true -> a = b.
Proof.
  destruct a, b. unfold date_eqb. simpl. intros H.
  apply andb_prop in H as [H Hd]. apply andb_prop in H as [Hy Hm].
  apply Z.eqb_eq in Hy, Hm, Hd. congruence.
Qed.

(** Every key of [tags] names itself, so the lookup of the tag, or of
    ["test"] in its place, always succeeds. *)
Lemma tags_lookup (tag : str) :
  (if tags_contains tag then tags_item tag else tags_item $"test")
  = inr (if tags_contains tag then tag else $"test").
Proof.
  unfold tags_contains, tags_item, tags. simpl.
  repeat match goal with
         | |- context [str_eqb ?k tag] =>
             let E := fresh "E" in
             destruct (str_eqb k tag) eqn:E;
             [apply str_eqb_eq in E; subst tag; reflexivity|]
         end.
  reflexivity.
Qed.

(** [filepath] in one equation: the date segment is recomputed only when
    the date changed, and the tag is put in front of whatever
    [current_path] then holds. *)
Lemma filepath_eq (self : FileManager) (tag : str) (today : date) :
  let base := if date_differs today (current_date self)
              then date_segment today else current_path self in
  let path := slash (known_tag tag) base in
  filepath self tag today
  = (inr (truediv (root_path self) path),
     {| root_path := root_path self;
        current_date := if date_differs today (current_date self)
                        then Some today else current_date self;
        current_path := path;
        current_full_path := truediv (root_path self) path |}).
Proof.
  unfold filepath, known_tag, normalized, date_segment.
  rewrite tags_lookup.
  destruct (date_differs today (current_date self)); reflexivity.
Qed.

(** After a call the cache holds the day of the call. *)
Lemma filepath_caches_date (self : FileManager) (tag : str) (today : date) :
  date_differs today (current_date (snd (filepath self tag today))) = false.
Proof.
  rewrite filepath_eq. simpl.
  destruct (date_differs today (current_date self)) eqn:E; simpl.
  - rewrite date_eqb_refl. reflexivity.
  - exact E.
Qed.

(** C1 (the code departs from it): on the second of two calls made the
    same day, the tag of the first call stays in the path.  In general the
    second path is [root / t2 / t1 / ...], where [root / t1 / ...] was the
    first; from a new [FileManager("/data/data/")] the calls
    [filepath("test")] and [filepath("experiment")] on 2024-01-02 return
    [/data/data/test/2024/01/02] and [/data/data/experiment/test/2024/01/02]. *)
Theorem filepath_accumulates_tags :
  (forall (self : FileManager) (t1 t2 : str) (today : date),
      exists rest s1 s2,
        filepath self t1 today
        = (inr (truediv (root_path self) (slash (known_tag t1) rest)), s1)
        /\ filepath s1 t2 today
           = (inr (truediv (root_path self)
                     (slash (known_tag t2) (slash (known_tag t1) rest))), s2))
  /\ (let self := FileManager_init (Path_of $"/data/data/") in
      let today := {| year := 2024; month := 1; day := 2 |} in
      let '(r1, s1) := filepath self $"test" today in
      let '(r2, s2) := filepath s1 $"experiment" today in
      r1 = inr (Path_of $"/data/data/test/2024/01/02")
      /\ r2 = inr (Path_of $"/data/data/experiment/test/2024/01/02")
      /\ r2 <> inr (Path_of $"/data/data/experiment/2024/01/02")).
Proof.
  split.
  - intros self t1 t2 today.
    pose proof (filepath_caches_date self t1 today) as Hc.
    rewrite (filepath_eq self t1 today) in Hc. simpl in Hc.
    eexists. eexists. eexists. split.
    + rewrite filepath_eq. reflexivity.
    + rewrite filepath_eq. cbn [root_path current_date current_path].
      rewrite Hc. reflexivity.
  - vm_compute. split; [reflexivity|]. split; [reflexivity|].
    intros H. discriminate H.
Qed.

Lemma known_tag_cases (tag : str) :
  known_tag tag = $"test" \/ known_tag tag = $"experiment"
  \/ known_tag tag = $"calibration" \/ known_tag tag = $"temp".
Proof.
  unfold known_tag, tags_contains, tags. cbn [dict_get].
  repeat match goal with
         | |- context [str_eqb ?k (normalized tag)] =>
             let E := fresh "E" in
             destruct (str_eqb k (normalized tag)) eqn:E;
             [apply str_eqb_eq in E; rewrite <- E; tauto|]
         end.
  tauto.
Qed.

(** Putting a known tag in front adds one component and keeps the path
    relative. *)
Lemma path_names_tag (tag rest : str) :
  path_names (slash (known_tag tag) rest) = known_tag tag :: path_names rest.
Proof.
  unfold path_names, slash.
  destruct (known_tag_cases tag) as [-> | [-> | [-> | ->]]];
    (rewrite split_app_sep;
     [reflexivity
     |vm_compute; intros H; repeat (destruct H as [H|H]; [discriminate H|]); exact H]).
Qed.

Lemma path_root_tag (tag rest : str) : path_root (slash (known_tag tag) rest) = [].
Proof.
  destruct (known_tag_cases tag) as [-> | [-> | [-> | ->]]]; reflexivity.
Qed.

Lemma truediv_tag (root : Path) (tag rest : str) :
  truediv root (slash (known_tag tag) rest) = root ++ known_tag tag :: path_names rest.
Proof.
  unfold truediv. rewrite path_root_tag, path_names_tag. reflexivity.
Qed.

(** The keys of [tags] are the four recognised tags. *)
Lemma tags_contains_iff (n : str) :
  tags_contains n = true
  <-> In n [$"test"; $"experiment"; $"calibration"; $"temp"].
Proof.
  unfold tags_contains, tags. cbn [dict_get].
  destruct (str_eqb $"test" n) eqn:E1;
    [apply str_eqb_eq in E1; subst n; split; [intros _; simpl; tauto | reflexivity]|].
  destruct (str_eqb $"experiment" n) eqn:E2;
    [apply str_eqb_eq in E2; subst n; split; [intros _; simpl; tauto | reflexivity]|].
  destruct (str_eqb $"calibration" n) eqn:E3;
    [apply str_eqb_eq in E3; subst n; split; [intros _; simpl; tauto | reflexivity]|].
  destruct (str_eqb $"temp" n) eqn:E4;
    [apply str_eqb_eq in E4; subst n; split; [intros _; simpl; tauto | reflexivity]|].
  apply str_eqb_neq in E1, E2, E3, E4.
  split; [discriminate|]. intros [H|[H|[H|[H|[]]]]]; congruence.
Qed.

(** The path [filepath] returns: the root, the directory of the tag, and
    the components of what [current_path] holds once the date is seen to. *)
Lemma filepath_path (self : FileManager) (tag : str) (today : date) :
  fst (filepath self tag today)
  = inr (root_path self ++ known_tag tag
           :: path_names (if date_differs today (current_date self)
                          then date_segment today else current_path self)).
Proof. rewrite filepath_eq. cbv zeta. cbn [fst]. rewrite truediv_tag. reflexivity. Qed.

(** C9: [filepath] looks the tag up after [strip] and [lower]; a tag that is
    then one of the four keys of [tags] gets the directory of that name,
    any other tag the directory ["test"], in both cases right below the
    root and above the same components.  Hence, from the same state and on
    the same day, ["Experiment "] and ["experiment"] give the same result,
    which lies in [experiment]; ["bogus-tag"] and ["test"] give the same
    result, which lies in [test]; and the two results differ. *)
Theorem filepath_normalizes_tag (self : FileManager) (today : date) :
  let rest := path_names (if date_differs today (current_date self)
                          then date_segment today else current_path self) in
  (forall tag,
      In (lower (strip tag)) [$"test"; $"experiment"; $"calibration"; $"temp"] ->
      fst (filepath self tag today)
      = inr (root_path self ++ lower (strip tag) :: rest))
  /\ (forall tag,
      ~ In (lower (strip tag)) [$"test"; $"experiment"; $"calibration"; $"temp"] ->
      fst (filepath self tag today) = inr (root_path self ++ $"test" :: rest))
  /\ (forall tag, filepath self tag today = filepath self (lower (strip tag)) today)
  /\ (forall tag, tags_contains (lower (strip tag)) = false ->
                  filepath self tag today = filepath self $"test" today)
  /\ filepath self $"Experiment " today = filepath self $"experiment" today
  /\ filepath self $"bogus-tag" today = filepath self $"test" today
  /\ fst (filepath self $"Experiment " today)
     = inr (root_path self ++ $"experiment" :: rest)
  /\ fst (filepath self $"bogus-tag" today) = inr (root_path self ++ $"test" :: rest)
  /\ fst (filepath self $"experiment" today) <> fst (filepath self $"test" today).
Proof.
  intros rest.
  assert (Hk : forall a b, known_tag a = known_tag b ->
                           filepath self a today = filepath self b today).
  { intros a b H. rewrite !filepath_eq. simpl. rewrite H. reflexivity. }
  assert (Hin : forall tag,
             In (lower (strip tag)) [$"test"; $"experiment"; $"calibration"; $"temp"] ->
             fst (filepath self tag today)
             = inr (root_path self ++ lower (strip tag) :: rest)).
  { intros tag H. rewrite filepath_path. fold rest.
    apply tags_contains_iff in H. unfold known_tag, normalized. rewrite H. reflexivity. }
  assert (Hout : forall tag,
             ~ In (lower (strip tag)) [$"test"; $"experiment"; $"calibration"; $"temp"] ->
             fst (filepath self tag today) = inr (root_path self ++ $"test" :: rest)).
  { intros tag H. rewrite filepath_path. fold rest.
    unfold known_tag, normalized.
    destruct (tags_contains (lower (strip tag))) eqn:E; [|reflexivity].
    apply tags_contains_iff in E. contradiction. }
  split; [exact Hin|]. split; [exact Hout|].
  split; [|split; [|split; [|split; [|split; [|split]]]]].
  - intros tag. apply Hk. unfold known_tag, normalized.
    rewrite lower_strip_idem. reflexivity.
  - intros tag H. apply Hk. unfold known_tag, normalized. rewrite H. reflexivity.
  - apply Hk. reflexivity.
  - apply Hk. reflexivity.
  - apply (Hin $"Experiment "). vm_compute. tauto.
  - apply (Hout $"bogus-tag"). vm_compute.
    intros H. repeat (destruct H as [H|H]; [discriminate H|]). exact H.
  - rewrite (Hin $"experiment") by (vm_compute; tauto).
    rewrite (Hin $"test") by (vm_compute; tauto).
    intros H. injection H as H. apply app_inv_head in H. discriminate H.
Qed.

Lemma filepath_normalizes_tag_witness :
  let self := FileManager_init (Path_of $"/data/data/") in
  let today := {| year := 2024; month := 1; day := 2 |} in
  fst (filepath self $" Bogus-Tag" today)
  = inr (Path_of $"/data/data/test/2024/01/02")
  /\ fst (filepath self $"Experiment " today)
     = inr (Path_of $"/data/data/experiment/2024/01/02")
  /\ fst (filepath self $"experiment" today) <> fst (filepath self $"test" today).
Proof.
  intros self today.
  pose proof (filepath_normalizes_tag self today) as H. cbv zeta in H.
  destruct H as (Hin & Hout & _ & _ & _ & _ & _ & _ & Hne).
  split; [|split; [|exact Hne]].
  - rewrite (Hout $" Bogus-Tag"); [vm_compute; reflexivity|].
    vm_compute. intros H. repeat (destruct H as [H|H]; [discriminate H|]). exact H.
  - rewrite (Hin $"Experiment "); [vm_compute; reflexivity|].
    vm_compute. tauto.
Defined.

End FileManagerSpec.

(* ------------------------------------------------------------------ *)
(** ** [LaserMetaData] *)

Module LaserMetaDataSpec.
Import Py PyFacts DataHandler.

(** The loop of [CurrentConfig] appends one entry per pair as long as the
    template's keys are distinct. *)
Lemma zip_config_from (template : dict str) (prog : list str) (acc : dict str) :
  NoDup (dict_keys acc ++ dict_keys template) ->
  fold_left
    (fun current_config kv =>
       dict_set current_config (fst (fst kv)) (snd (fst kv) ++ snd kv))
    (combine template prog) acc
  = acc ++ resolved template prog.
Proof.
  revert prog acc.
  induction template as [|[k p] t IH]; intros prog acc Hnd; simpl.
  - rewrite app_nil_r. reflexivity.
  - destruct prog as [|v vs]; simpl; [rewrite app_nil_r; reflexivity|].
    rewrite dict_set_new.
    + unfold resolved in IH. rewrite IH.
      * rewrite <- app_assoc. reflexivity.
      * unfold dict_keys in *. rewrite map_app, <- app_assoc. simpl. exact Hnd.
    + simpl in Hnd. apply NoDup_remove_2 in Hnd.
      intros Hin. apply Hnd. apply in_or_app. now left.
Qed.

Lemma zip_config_resolved (template : dict str) (prog : list str) :
  NoDup (dict_keys template) -> zip_config template prog = resolved template prog.
Proof.
  intros Hnd. unfold zip_config. rewrite zip_config_from; [reflexivity | exact Hnd].
Qed.

Lemma resolved_keys (template : dict str) (prog : list str) :
  length prog = length template ->
  dict_keys (resolved template prog) = dict_keys template.
Proof.
  unfold dict_keys, resolved. revert prog.
  induction template as [|[k p] t IH]; intros [|v vs] H; simpl in *;
    try reflexivity; try discriminate.
  f_equal. apply IH. congruence.
Qed.

Lemma RawConfig_keys_distinct : NoDup (dict_keys RawConfig).
Proof.
  unfold dict_keys. vm_compute.
  repeat (constructor;
          [intros H; repeat (destruct H as [H|H]; [discriminate H|]); exact H|]).
  constructor.
Qed.

(** [self.CurrentProgram] is the class attribute: what [change_program]
    stores under that name in the dictionary is never read back, so
    [CurrentConfig] is the same for every object. *)
Lemma CurrentConfig_any (self : LaserMetaData) :
  CurrentConfig self
  = (prog <- index Programs CurrentProgram ;; ret (zip_config RawConfig prog)).
Proof. reflexivity. Qed.

Lemma str_values_keys (d : dict str) : dict_keys (str_values d) = dict_keys d.
Proof. unfold dict_keys, str_values. rewrite map_map. reflexivity. Qed.

Lemma str_values_get (d : dict str) (k : str) (v : str) :
  dict_get d k = Some v -> dict_get (str_values d) k = Some (VStr v).
Proof.
  induction d as [|[k' v'] r IH]; simpl; [discriminate|].
  destruct (str_eqb k' k); [intros [= ->]; reflexivity | exact IH].
Qed.

Lemma class_attrs_names (key : str) (v : pyval) :
  dict_get class_attrs key = Some v -> key = $"OUT" \/ key = $"CurrentProgram".
Proof.
  unfold class_attrs. cbn [dict_get].
  destruct (str_eqb $"OUT" key) eqn:E1; [apply str_eqb_eq in E1; now left|].
  destruct (str_eqb $"CurrentProgram" key) eqn:E2; [apply str_eqb_eq in E2; now right|].
  discriminate.
Qed.

(** C7: for a valid index [i], [change_program(i)] returns, and
    [CurrentConfig] is then the template's keys in their order, each with
    its prefix followed by the value at the same position of [Programs[i]];
    the object's own fields hold the same strings. *)
Theorem change_program_resolves (self : LaserMetaData) (i : Z) :
  0 <= i < Z.of_nat (length Programs) ->
  exists self' prog cfg,
    change_program self i = (inr tt, self')
    /\ index Programs i = inr prog
    /\ CurrentConfig self' = inr cfg
    /\ cfg = resolved RawConfig prog
    /\ dict_keys cfg = dict_keys RawConfig
    /\ (forall key value, dict_get cfg key = Some value ->
                          getattr class_attrs self' key = inr (VStr value)).
Proof.
  intros Hi. simpl in Hi. assert (i = 0) by lia. subst i.
  destruct (index Programs 0) as [e|prog] eqn:Hp; [discriminate Hp|].
  exists (dict_update (setattr self $"CurrentProgram" (VInt 0))
            (str_values (zip_config RawConfig prog))), prog, (zip_config RawConfig prog).
  assert (Hlen : length prog = length RawConfig).
  { injection Hp as <-. reflexivity. }
  split; [|split; [|split; [|split; [|split]]]].
  - unfold change_program. rewrite CurrentConfig_any.
    change CurrentProgram with 0. rewrite Hp. reflexivity.
  - reflexivity.
  - rewrite CurrentConfig_any. change CurrentProgram with 0. rewrite Hp. reflexivity.
  - apply zip_config_resolved, RawConfig_keys_distinct.
  - rewrite zip_config_resolved by apply RawConfig_keys_distinct.
    apply resolved_keys, Hlen.
  - intros key value Hg. unfold getattr.
    destruct (dict_get class_attrs key) as [v|] eqn:Hc.
    + exfalso. injection Hp as <-.
      apply class_attrs_names in Hc as [-> | ->]; vm_compute in Hg; discriminate Hg.
    + erewrite dict_get_update; [reflexivity| |apply str_values_get, Hg].
      rewrite str_values_keys, zip_config_resolved by apply RawConfig_keys_distinct.
      rewrite resolved_keys by exact Hlen. apply RawConfig_keys_distinct.
Qed.

Lemma change_program_resolves_witness :
  exists self' prog cfg,
    change_program [] 0 = (inr tt, self')
    /\ index Programs 0 = inr prog
    /\ CurrentConfig self' = inr cfg
    /\ cfg = resolved RawConfig prog
    /\ dict_keys cfg = dict_keys RawConfig
    /\ (forall key value, dict_get cfg key = Some value ->
                          getattr class_attrs self' key = inr (VStr value)).
Proof.
  apply (change_program_resolves [] 0). simpl. lia.
Defined.

(** C2 (the code departs from it): the guard of [change_program] only
    tests [program >= len(Programs)].  [change_program(len(Programs))]
    raises and leaves the object as it was; [change_program(-1)] raises
    nothing and stores [-1] under ["CurrentProgram"]. *)
Theorem change_program_accepts_negative (self : LaserMetaData) :
  change_program self (Z.of_nat (length Programs)) = (inl ValueError, self)
  /\ exists self',
       change_program self (-1) = (inr tt, self')
       /\ dict_get self' $"CurrentProgram" = Some (VInt (-1)).
Proof.
  split; [reflexivity|].
  eexists. split; [reflexivity|].
  rewrite dict_get_update_other.
  - apply dict_get_set_same.
  - vm_compute. intros H.
    repeat (destruct H as [H|H]; [discriminate H|]). exact H.
Qed.

(** *** Properties *)

Lemma getattr_field (self : BaseData) (name : str) :
  dict_get class_attrs name = None ->
  getattr class_attrs self name
  = match dict_get self name with
    | Some v => inr v
    | None => inl KeyError
    end.
Proof. unfold getattr. intros ->. reflexivity. Qed.

(** None of the names that the class defines otherwise is a field of the
    configuration, so [getattr] is asked for dictionary entries only. *)
Lemma fields_not_class_names (key : str) :
  In key (dict_keys RawConfig) ->
  ~ In key class_names /\ dict_get class_attrs key = None.
Proof.
  intros Hin. vm_compute in Hin.
  repeat (destruct Hin as [<- | Hin];
          [split; [|reflexivity]; vm_compute; intros H;
           repeat (destruct H as [H|H]; [discriminate H|]); exact H|]).
  destruct Hin.
Qed.

Lemma property_returns {A} (name : str) (getter : BaseData -> result A)
  (self : BaseData) (a : A) :
  getter self = inr a -> property name getter self = inr (Computed a).
Proof. unfold property. intros ->. reflexivity. Qed.

Lemma property_raises {A} (name : str) (getter : BaseData -> result A)
  (self : BaseData) (e : exn) :
  getter self = inl e -> e <> AttributeError -> property name getter self = inl e.
Proof. unfold property. intros -> H. destruct e; try reflexivity. congruence. Qed.


Lemma index_raises {A} (l : list A) (i : Z) (e : exn) : index l i = inl e -> e = IndexError.
Proof.
  unfold index.
  destruct ((0 <=? (if i <? 0 then i + Z.of_nat (length l) else i))
            && ((if i <? 0 then i + Z.of_nat (length l) else i) <? Z.of_nat (length l)));
    [destruct (nth_error l _); [discriminate|]|]; intros [= <-]; reflexivity.
Qed.

Lemma int_of_float_raises (x : float) (e : exn) :
  int_of_float x = inl e -> e = OverflowError \/ e = ValueError.
Proof.
  unfold int_of_float. destruct (Prim2SF x); try discriminate;
    intros [= <-]; [now left | now right].
Qed.

(** [int] on a [float] truncates. *)
Lemma int_of_float_truncation (x : float) (z : Z) :
  int_of_float x = inr z -> truncation x z.
Proof.
  unfold int_of_float, truncation. destruct (Prim2SF x) as [s|s| |s m e]; try discriminate.
  - intros [= <-]. reflexivity.
  - destruct (0 <=? e) eqn:E.
    + apply Z.leb_le in E.
      assert (H : 0 <= Z.pos m * 2 ^ e)
        by (apply Z.mul_nonneg_nonneg; [lia | apply Z.pow_nonneg; lia]).
      set (a := Z.pos m * 2 ^ e) in *. intros [= <-].
      destruct s; cbv beta iota; split; lia.
    + apply Z.leb_gt in E.
      assert (Hd : 0 < 2 ^ (- e)) by (apply Z.pow_pos_nonneg; lia).
      assert (Hq : 0 <= Z.pos m / 2 ^ (- e)) by (apply Z.div_pos; lia).
      pose proof (Z.mul_div_le (Z.pos m) _ Hd) as Hlo.
      pose proof (Z.mul_succ_div_gt (Z.pos m) _ Hd) as Hhi.
      set (d := 2 ^ (- e)) in *. set (a := Z.pos m / d) in *. intros [= <-].
      destruct s; cbv beta iota; (split; [lia|]).
      * rewrite Z.abs_opp, Z.abs_eq by lia. nia.
      * rewrite Z.abs_eq by lia. nia.
Qed.

(** [dt] for an object whose [SamplingCycle] is a string: the code is the
    integer after the last comma, and the table gives the interval. *)
Lemma dt_cycle (self : LaserMetaData) (cycle : str) :
  dict_get self $"SamplingCycle" = Some (VStr cycle) ->
  dt self
  = match (tok <- index (split "," cycle) (-1) ;; py_int tok) with
    | inl e => inl e
    | inr c =>
        match rate_of SamplingRates c with
        | Some q => inr (Computed (to_s q))
        | None => inl KeyError
        end
    end.
Proof.
  intros H. unfold dt.
  assert (Hg : dt_getter self
               = (c <- (tok <- index (split "," cycle) (-1) ;; py_int tok) ;;
                  match rate_of SamplingRates c with
                  | Some q => ret (to_s q)
                  | None => raise KeyError
                  end)).
  { unfold dt_getter. rewrite getattr_field by reflexivity. rewrite H.
    cbn [bind as_str ret]. destruct (index (split "," cycle) (-1)); reflexivity. }
  destruct (index (split "," cycle) (-1)) as [e|tok] eqn:Ei; cbn [bind] in Hg |- *.
  - apply property_raises; [exact Hg|]. rewrite (index_raises _ _ _ Ei). discriminate.
  - destruct (py_int tok) as [e|c] eqn:Ec; cbn [bind] in Hg.
    + apply property_raises; [exact Hg|]. rewrite (py_int_raises _ _ Ec). discriminate.
    + destruct (rate_of SamplingRates c).
      * apply property_returns, Hg.
      * apply property_raises; [exact Hg | discriminate].
Qed.

(** [StorageSize] for an object whose [DataStorage] is a string. *)
Lemma StorageSize_storage (self : LaserMetaData) (storage : str) :
  dict_get self $"DataStorage" = Some (VStr storage) ->
  StorageSize self
  = match (tok <- index (split "," storage) (-2) ;; py_int tok) with
    | inl e => inl e
    | inr n => inr (Computed n)
    end.
Proof.
  intros H. unfold StorageSize.
  assert (Hg : StorageSize_getter self
               = (tok <- index (split "," storage) (-2) ;; py_int tok)).
  { unfold StorageSize_getter. rewrite getattr_field by reflexivity. rewrite H.
    reflexivity. }
  destruct (index (split "," storage) (-2)) as [e|tok] eqn:Ei; cbn [bind] in Hg |- *.
  - apply property_raises; [exact Hg|]. rewrite (index_raises _ _ _ Ei). discriminate.
  - destruct (py_int tok) as [e|n] eqn:En.
    + apply property_raises; [exact Hg|]. rewrite (py_int_raises _ _ En). discriminate.
    + apply property_returns, Hg.
Qed.

(** [Frequency] and [WaitingTime] once the values they use are computed. *)
Lemma Frequency_computed (self : LaserMetaData) (d : float) :
  dt self = inr (Computed d) ->
  Frequency self = (f <- int_of_float (1 / d)%float ;; ret (Computed f)).
Proof.
  intros H. unfold Frequency.
  assert (Hg : Frequency_getter self = int_of_float (1 / d)%float).
  { unfold Frequency_getter. rewrite H. reflexivity. }
  destruct (int_of_float (1 / d)%float) as [e|f] eqn:E; cbn [bind].
  - apply property_raises; [exact Hg|].
    destruct (int_of_float_raises _ _ E) as [-> | ->]; discriminate.
  - apply property_returns, Hg.
Qed.

Lemma WaitingTime_computed (self : LaserMetaData) (d : float) (n : Z) :
  dt self = inr (Computed d) -> StorageSize self = inr (Computed n) ->
  WaitingTime self = (w <- int_of_float (d * float_of_Z n)%float ;; ret (Computed w)).
Proof.
  intros H Hn. unfold WaitingTime.
  assert (Hg : WaitingTime_getter self = int_of_float (d * float_of_Z n)%float).
  { unfold WaitingTime_getter. rewrite H. cbn [bind value ret]. rewrite Hn. reflexivity. }
  destruct (int_of_float (d * float_of_Z n)%float) as [e|w] eqn:E; cbn [bind].
  - apply property_raises; [exact Hg|].
    destruct (int_of_float_raises _ _ E) as [-> | ->]; discriminate.
  - apply property_returns, Hg.
Qed.

(** Every rate of the table: in seconds it is positive and lies at most
    one unit in the last place below the exact quotient by a million; its
    inverse truncates to a positive integer; both are as [derived_table]
    lists them. *)
Lemma rate_positive (c : Z) (q : float) :
  rate_of SamplingRates c = Some q ->
  (0 <? to_s q)%float = true
  /\ (next_down (q / 1e6) <=? to_s q)%float = true
  /\ (to_s q <=? q / 1e6)%float = true
  /\ exists f, int_of_float (1 / to_s q)%float = inr f /\ 0 < f
               /\ In (c, to_s q, f) derived_table.
Proof.
  unfold SamplingRates. cbn [rate_of]. intros H.
  repeat match type of H with
         | (if ?b then _ else _) = _ =>
             let E := fresh "E" in
             destruct b eqn:E;
             [apply Z.eqb_eq in E; subst c; injection H as <-;
              split; [vm_compute; reflexivity|];
              split; [vm_compute; reflexivity|];
              split; [vm_compute; reflexivity|];
              eexists; split; [vm_compute; reflexivity|];
              split; [reflexivity|]; vm_compute; tauto|]
         end.
  discriminate H.
Qed.

(** C3: the derived scalars of an object whose [SamplingCycle] is a string
    ending, after its last comma, in the code [c].  With [c] in
    [SamplingRates], [dt] is the rate converted to seconds (the value times
    [1e-6], at most one unit in the last place off the exact quotient) and
    positive; [Frequency] is [1 / dt] truncated, a positive integer; interval
    and frequency are those of [derived_table]; with [DataStorage] a string
    whose second-to-last field reads as the integer [n], [StorageSize] is
    [n] and [WaitingTime] is [dt * n] truncated (an [OverflowError] or
    [ValueError] of that conversion reaching the caller).  With [c] absent
    from the table, [dt] raises [KeyError]. *)
Theorem derived_scalars (self : LaserMetaData) (cycle tok : str) (c : Z) :
  dict_get self $"SamplingCycle" = Some (VStr cycle) ->
  from_end 0 (split "," cycle) = Some tok ->
  py_int tok = inr c ->
  (forall q, rate_of SamplingRates c = Some q ->
     dt self = inr (Computed (to_s q))
     /\ (0 <? to_s q)%float = true
     /\ (next_down (q / 1e6) <=? to_s q)%float = true
     /\ (to_s q <=? q / 1e6)%float = true
     /\ (exists f, Frequency self = inr (Computed f)
                   /\ truncation (1 / to_s q)%float f
                   /\ 0 < f
                   /\ In (c, to_s q, f) derived_table)
     /\ (forall storage tok' n,
           dict_get self $"DataStorage" = Some (VStr storage) ->
           from_end 1 (split "," storage) = Some tok' ->
           py_int tok' = inr n ->
           StorageSize self = inr (Computed n)
           /\ WaitingTime self
              = (w <- int_of_float (to_s q * float_of_Z n)%float ;; ret (Computed w))
           /\ (forall w, WaitingTime self = inr (Computed w) ->
                         truncation (to_s q * float_of_Z n)%float w)))
  /\ (rate_of SamplingRates c = None -> dt self = inl KeyError).
Proof.
  intros Hcycle Htok Hcode.
  assert (Hdt : dt self = match rate_of SamplingRates c with
                          | Some q => inr (Computed (to_s q))
                          | None => inl KeyError
                          end).
  { rewrite (dt_cycle self cycle Hcycle).
    change (-1) with (- Z.of_nat 1). rewrite index_from_end, Htok.
    cbn [bind]. rewrite Hcode. reflexivity. }
  split.
  - intros q Hq. rewrite Hq in Hdt.
    destruct (rate_positive c q Hq) as (Hpos & Hlo & Hhi & f & Hf & Hf0 & Htab).
    split; [exact Hdt|]. split; [exact Hpos|]. split; [exact Hlo|]. split; [exact Hhi|].
    split.
    + exists f. rewrite (Frequency_computed self _ Hdt), Hf.
      split; [reflexivity|]. split; [apply int_of_float_truncation, Hf|].
      split; [exact Hf0 | exact Htab].
    + intros storage tok' n Hs Htok' Hn.
      assert (Hst : StorageSize self = inr (Computed n)).
      { rewrite (StorageSize_storage self storage Hs).
        change (-2) with (- Z.of_nat 2). rewrite index_from_end, Htok'.
        cbn [bind]. rewrite Hn. reflexivity. }
      split; [exact Hst|].
      rewrite (WaitingTime_computed self _ n Hdt Hst).
      split; [reflexivity|].
      intros w Hw.
      destruct (int_of_float (to_s q * float_of_Z n)%float) as [e|w'] eqn:E;
        [discriminate Hw|].
      injection Hw as <-. apply int_of_float_truncation, E.
  - intros Hq. rewrite Hq in Hdt. exact Hdt.
Qed.

(** The object built by [LaserMetaData()]: code 8, one millisecond. *)
Lemma derived_scalars_witness :
  exists self,
    LaserMetaData_init = inr self
    /\ dt self = inr (Computed 0.001%float)
    /\ Frequency self = inr (Computed 1000)
    /\ StorageSize self = inr (Computed 60000)
    /\ WaitingTime self = inr (Computed 60).
Proof.
  destruct LaserMetaData_init as [e|self] eqn:Hinit; [discriminate Hinit|].
  exists self. split; [reflexivity|].
  assert (Hc : dict_get self $"SamplingCycle" = Some (VStr $"SW,CA,8"))
    by (injection Hinit as <-; reflexivity).
  assert (Hs : dict_get self $"DataStorage" = Some (VStr $"SW,CF,0060000,1"))
    by (injection Hinit as <-; reflexivity).
  destruct (derived_scalars self $"SW,CA,8" $"8" 8 Hc eq_refl eq_refl) as (Hq & _).
  destruct (Hq 1000%float eq_refl) as (Hdt & _ & _ & _ & (f & Hf & _ & _ & Htab) & Hst).
  destruct (Hst $"SW,CF,0060000,1" $"0060000" 60000 Hs eq_refl eq_refl) as (Hn & Hw & _).
  split; [exact Hdt|]. split.
  - rewrite Hf. vm_compute in Htab.
    repeat (destruct Htab as [Htab|Htab]; [try discriminate Htab|]);
      [injection Htab as <-; reflexivity | destruct Htab].
  - split; [exact Hn|]. rewrite Hw. reflexivity.
Defined.

End LaserMetaDataSpec.

(* ------------------------------------------------------------------ *)
(** ** [LaserData]: [insert] and [timeseries] *)

Module LaserDataSpec.
Import Py PyFacts DataHandler.

(** [insert] in one equation. *)
Lemma insert_eq (self : LaserData) (data : list float) (now : datetime) :
  insert self data now
  = match window_start (MetaData self) (Z.of_nat (length (Data self ++ data))) now with
    | inr start =>
        (inr tt, {| Data := Data self ++ data; MetaData := MetaData self;
                    StartTime := start; EndTime := now |})
    | inl e =>
        (inl e, {| Data := Data self ++ data; MetaData := MetaData self;
                   StartTime := StartTime self; EndTime := now |})
    end.
Proof. reflexivity. Qed.

Lemma insert_defined (self : LaserData) (data : list float) (now start : datetime) :
  window_start (MetaData self) (Z.of_nat (length (Data self ++ data))) now = inr start ->
  insert self data now
  = (inr tt, {| Data := Data self ++ data; MetaData := MetaData self;
                StartTime := start; EndTime := now |}).
Proof. intros H. rewrite insert_eq, H. reflexivity. Qed.

(** A run of defined calls returns; the buffer has grown by the samples of
    all calls in order, and the invariant holds at the end. *)
Lemma insert_all_defined (calls : list (list float * datetime)) (self : LaserData) :
  calls_defined (MetaData self) (length (Data self)) calls ->
  exists self',
    insert_all self calls = (inr tt, self')
    /\ Data self' = Data self ++ concat (map fst calls)
    /\ MetaData self' = MetaData self
    /\ (calls <> [] -> window_invariant self').
Proof.
  revert self. induction calls as [|[data now] rest IH]; intros self Hdef.
  - exists self. simpl. rewrite app_nil_r. repeat split; try reflexivity.
    intros H. now contradiction H.
  - simpl in Hdef. destruct Hdef as [[start Hstart] Hrest].
    rewrite <- length_app in Hstart, Hrest.
    set (self1 := {| Data := Data self ++ data; MetaData := MetaData self;
                     StartTime := start; EndTime := now |}).
    destruct (IH self1 Hrest) as (self' & Hrun & Hdata & Hmeta & Hinv).
    exists self'. simpl. rewrite (insert_defined self data now start Hstart).
    fold self1. rewrite Hrun. split; [reflexivity|].
    split; [rewrite Hdata; simpl; apply eq_sym, app_assoc|].
    split; [exact Hmeta|]. intros _.
    destruct rest as [|call rest'].
    + simpl in Hrun. injection Hrun as <-. exact Hstart.
    + apply Hinv. discriminate.
Qed.

(** No call touches the metadata. *)
Lemma insert_all_defined_meta (calls : list (list float * datetime))
  (self self' : LaserData) (r : result unit) :
  insert_all self calls = (r, self') -> MetaData self' = MetaData self.
Proof.
  revert self. induction calls as [|[data now] rest IH]; intros self H; simpl in H.
  - injection H as _ <-. reflexivity.
  - rewrite insert_eq in H.
    destruct (window_start (MetaData self) (Z.of_nat (length (Data self ++ data))) now).
    + injection H as _ <-. reflexivity.
    + apply IH in H. exact H.
Qed.

(** The sampling interval is one of the nine rates. *)
Lemma dt_rates (m : LaserMetaData) (v : float) :
  dt m = inr (Computed v) -> exists c q, rate_of SamplingRates c = Some q /\ v = to_s q.
Proof.
  unfold dt, property. intros H.
  destruct (dt_getter m) as [e|x] eqn:Hg.
  - destruct e; try discriminate H.
    destruct (dict_get m $"dt"); discriminate H.
  - injection H as ->. unfold dt_getter, bind in Hg.
    destruct (getattr class_attrs m $"SamplingCycle"); [discriminate Hg|].
    destruct (as_str p); [discriminate Hg|].
    destruct (index (split "," s) (-1)); [discriminate Hg|].
    destruct (py_int s0) as [|c]; [discriminate Hg|].
    destruct (rate_of SamplingRates c) as [q|] eqn:Hq; [|discriminate Hg].
    exists c, q. split; [exact Hq|]. injection Hg as <-. reflexivity.
Qed.

(** Up to four samples span at most four milliseconds; no sample, no time. *)
Lemma window_small (m : LaserMetaData) (v : float) (n : Z) :
  dt m = inr (Computed v) -> 0 <= n <= 4 ->
  exists delta,
    timedelta_seconds (float_of_Z n * v)%float = inr delta
    /\ 0 <= delta <= 1000 * n.
Proof.
  intros Hdt Hn. destruct (dt_rates m v Hdt) as (c & q & Hq & ->).
  assert (Hcases : n = 0 \/ n = 1 \/ n = 2 \/ n = 3 \/ n = 4) by lia.
  unfold SamplingRates in Hq. cbn [rate_of] in Hq.
  repeat match type of Hq with
         | (if ?b then _ else _) = _ =>
             destruct b;
             [injection Hq as <-;
              destruct Hcases as [-> | [-> | [-> | [-> | ->]]]];
              eexists; (split; [vm_compute; reflexivity | vm_compute; split; discriminate])|]
         end.
  discriminate Hq.
Qed.

Lemma window_start_small (m : LaserMetaData) (v : float) (n : Z) (t : datetime) :
  dt m = inr (Computed v) -> 0 <= n <= 4 -> 1000 * n <= t < datetime_end ->
  exists delta, 0 <= delta <= 1000 * n /\ window_start m n t = inr (t - delta).
Proof.
  intros Hdt Hn Ht.
  destruct (window_small m v n Hdt Hn) as (delta & Hdelta & Hrange).
  exists delta. split; [exact Hrange|].
  unfold window_start. rewrite Hdt. cbn [bind value ret]. rewrite Hdelta. cbn [bind].
  unfold datetime_sub.
  replace (0 <=? t - delta) with true by (symmetry; apply Z.leb_le; lia).
  replace (t - delta <? datetime_end) with true by (symmetry; apply Z.ltb_lt; lia).
  reflexivity.
Qed.

(** C4: [insert] always leaves the previous buffer followed by the new
    samples and [EndTime] at the reading of the clock; it returns exactly
    when the start of the window can be computed, and then
    [StartTime = EndTime - timedelta(len(Data) * dt)].  Every run of such
    calls returns with the buffer extended by the samples of all calls, in
    order, and with the same invariant.
    In particular [insert([a,b,c])] then [insert([d])] on an empty dataset
    leave [[a,b,c,d]] and a window of four sampling intervals, and
    [insert([])] on an empty dataset leaves [StartTime = EndTime]. *)
Theorem insert_extends_window :
  (forall (self : LaserData) (data : list float) (now : datetime),
      let '(r, self') := insert self data now in
      Data self' = Data self ++ data
      /\ EndTime self' = now
      /\ (r = inr tt <->
          exists start, window_start (MetaData self) (data_length self') now = inr start)
      /\ (r = inr tt -> window_invariant self'))
  /\ (forall (self : LaserData) (calls : list (list float * datetime)),
      calls_defined (MetaData self) (length (Data self)) calls ->
      exists self',
        insert_all self calls = (inr tt, self')
        /\ Data self' = Data self ++ concat (map fst calls)
        /\ (calls <> [] -> window_invariant self'))
  /\ (forall (self : LaserData) (a b c d : float) (t1 t2 : datetime) (v : float),
        Data self = [] -> dt (MetaData self) = inr (Computed v) ->
        4000 <= t1 < datetime_end -> 4000 <= t2 < datetime_end ->
        exists self',
          insert_all self [([a; b; c], t1); ([d], t2)] = (inr tt, self')
          /\ Data self' = [a; b; c; d]
          /\ EndTime self' = t2
          /\ window_start (MetaData self') 4 (EndTime self') = inr (StartTime self'))
  /\ (forall (self : LaserData) (now : datetime) (v : float),
        Data self = [] -> dt (MetaData self) = inr (Computed v) ->
        0 <= now < datetime_end ->
        exists self',
          insert self [] now = (inr tt, self')
          /\ Data self' = []
          /\ EndTime self' = now
          /\ StartTime self' = EndTime self').
Proof.
  split; [|split; [|split]].
  - intros self data now. rewrite insert_eq. unfold window_invariant, data_length.
    destruct (window_start (MetaData self) (Z.of_nat (length (Data self ++ data))) now)
      as [e|start] eqn:E; simpl; rewrite E.
    + split; [reflexivity|]. split; [reflexivity|]. split.
      * split; [discriminate | intros [start H]; discriminate H].
      * discriminate.
    + split; [reflexivity|]. split; [reflexivity|]. split.
      * split; [intros _; exists start; reflexivity | reflexivity].
      * reflexivity.
  - intros self calls Hdef.
    destruct (insert_all_defined calls self Hdef) as (self' & H1 & H2 & _ & H3).
    exists self'. auto.
  - intros self a b c d t1 t2 v Hempty Hdt Ht1 Ht2.
    destruct (window_start_small (MetaData self) v 3 t1 Hdt) as (d1 & _ & H1); [lia|lia|].
    destruct (window_start_small (MetaData self) v 4 t2 Hdt) as (d2 & _ & H2); [lia|lia|].
    eexists. simpl insert_all. rewrite insert_eq, Hempty. simpl. rewrite H1.
    rewrite insert_eq. simpl. rewrite H2.
    split; [reflexivity|]. simpl. split; [reflexivity|]. split; [reflexivity | exact H2].
  - intros self now v Hempty Hdt Hnow.
    destruct (window_start_small (MetaData self) v 0 now Hdt) as (d0 & Hd0 & H0); [lia|lia|].
    assert (d0 = 0) by lia. subst d0. rewrite Z.sub_0_r in H0.
    eexists. rewrite insert_eq, Hempty. simpl. rewrite H0.
    split; [reflexivity|]. simpl. auto.
Qed.

Lemma insert_extends_window_witness :
  exists self self',
    LaserData_init 63000000000000000 63000000000000001 = inr self
    /\ insert_all self [([1; 2; 3]%float, 63000000005000000);
                        ([4]%float, 63000000006000000)] = (inr tt, self')
    /\ Data self' = [1; 2; 3; 4]%float
    /\ EndTime self' = 63000000006000000
    /\ StartTime self' = 63000000005996000.
Proof.
  destruct (LaserData_init 63000000000000000 63000000000000001) as [e|self] eqn:Hi;
    [discriminate Hi|].
  assert (Hd : Data self = []) by (injection Hi as <-; reflexivity).
  assert (Hdt : dt (MetaData self) = inr (Computed 0.001%float))
    by (injection Hi as <-; reflexivity).
  destruct (proj1 (proj2 (proj2 insert_extends_window)) self 1%float 2%float 3%float 4%float
              63000000005000000 63000000006000000 0.001%float Hd Hdt)
    as (self' & Hrun & Hdata & Hend & Hinv).
  { unfold datetime_end, us_per_day. lia. }
  { unfold datetime_end, us_per_day. lia. }
  exists self, self'. split; [reflexivity|]. split; [exact Hrun|].
  split; [exact Hdata|]. split; [exact Hend|].
  rewrite Hend in Hinv.
  assert (Hm : MetaData self' = MetaData self).
  { apply (insert_all_defined_meta _ _ _ _ Hrun). }
  assert (Hs : window_start (MetaData self) 4 63000000006000000
               = inr 63000000005996000).
  { unfold window_start. rewrite Hdt. vm_compute. reflexivity. }
  rewrite Hm, Hs in Hinv. injection Hinv as <-. reflexivity.
Defined.

(** *** [parse_insert] *)

(** [strip] on the frame is [rstrip] on its last sample token. *)
Lemma sample_tokens_strip (data : str) :
  sample_tokens (strip data) = on_last rstrip (sample_tokens data).
Proof. unfold sample_tokens. apply (tl_split_strip "," eq_refl). Qed.

Lemma sentinel_tight :
  SENTINEL <> [] /\ $"nan" <> []
  /\ Forall (fun c => is_space c = false) SENTINEL
  /\ Forall (fun c => is_space c = false) $"nan".
Proof. repeat split; try discriminate; repeat constructor. Qed.

Lemma rstrip_sentinel (t : str) :
  rstrip (replace SENTINEL $"nan" t) = replace SENTINEL $"nan" (rstrip t).
Proof.
  destruct sentinel_tight as (H1 & H2 & H3 & H4).
  apply (rstrip_replace SENTINEL $"nan" H1 H2 H3 H4).
Qed.

Lemma split_sentinel (s : str) :
  split "," (replace SENTINEL $"nan" s) = map (replace SENTINEL $"nan") (split "," s).
Proof.
  apply split_replace; [discriminate | |];
    vm_compute; intros H; repeat (destruct H as [H|H]; [discriminate H|]); exact H.
Qed.

(** The tokens that reach [float]: the sample tokens of the frame with the
    sentinel replaced in each and the white space at the end of the frame
    taken off the last; or, the same, the sample tokens of the stripped
    frame with the sentinel replaced in each. *)
Lemma parse_tokens_raw (data : str) :
  tl (split "," (strip (replace SENTINEL $"nan" data)))
  = on_last rstrip (map (replace SENTINEL $"nan") (sample_tokens data)).
Proof.
  rewrite (tl_split_strip "," eq_refl), split_sentinel.
  unfold sample_tokens. destruct (split "," data); reflexivity.
Qed.

Lemma parse_tokens (data : str) :
  tl (split "," (strip (replace SENTINEL $"nan" data)))
  = map (replace SENTINEL $"nan") (sample_tokens (strip data)).
Proof.
  rewrite parse_tokens_raw, sample_tokens_strip.
  apply on_last_map, rstrip_sentinel.
Qed.

(** One token that [float] refuses is enough for the frame to be dropped. *)
Lemma parse_rejected (self : LaserData) (data : str) (now : datetime) (t : str) :
  In t (sample_tokens (strip data)) ->
  (forall v, py_float (replace SENTINEL $"nan" t) <> inr v) ->
  parse_insert self data now
  = (inr tt, self,
     [InvalidData (ExStr (slice_to 10 data)) (ExStr (slice_last 10 data))]).
Proof.
  intros Hin Hbad. unfold parse_insert. rewrite parse_tokens, mapM_map.
  rewrite (mapM_some_raise _ ValueError); [reflexivity | |].
  - intros a e. apply py_float_raises.
  - exists t. split; [exact Hin|].
    destruct (py_float (replace SENTINEL $"nan" t)) as [e|v] eqn:E.
    + rewrite (py_float_raises _ e E). reflexivity.
    + exfalso. apply (Hbad v). reflexivity.
Qed.

(** [mapM] on a list whose last element went through [h], when [h] does not
    change what the function returns. *)
Lemma mapM_on_last {A B} (f : A -> result B) (g : A -> B) (h : A -> A) (l : list A) :
  (forall a, In a l -> f a = inr (g a) /\ f (h a) = inr (g a)) ->
  mapM f (on_last h l) = inr (map g l).
Proof.
  induction l as [|a r IH]; intros H; [reflexivity|].
  destruct r as [|b r].
  - change (on_last h [a]) with [h a]. cbn [mapM].
    rewrite (proj2 (H a (or_introl eq_refl))). reflexivity.
  - change (on_last h (a :: b :: r)) with (a :: on_last h (b :: r)). cbn [mapM].
    rewrite (proj1 (H a (or_introl eq_refl))). cbn [bind].
    rewrite IH; [reflexivity|]. intros x Hx. apply H. now right.
Qed.

(** A frame of numeric and sentinel tokens goes to [insert] as the list of
    its readings. *)
Lemma parse_accepted (data : str) :
  (forall t, In t (sample_tokens data) -> t = SENTINEL \/ numeric t) ->
  mapM py_float (tl (split "," (strip (replace SENTINEL $"nan" data))))
  = inr (map sample_value (sample_tokens data)).
Proof.
  intros Hall. rewrite parse_tokens_raw.
  rewrite (on_last_map rstrip _ rstrip _ rstrip_sentinel), mapM_map.
  apply mapM_on_last. intros t Hin.
  assert (Hread : py_float (replace SENTINEL $"nan" t) = inr (sample_value t)).
  { unfold sample_value. destruct (str_eqb t SENTINEL) eqn:E.
    - apply str_eqb_eq in E. subst t. reflexivity.
    - destruct (Hall t Hin) as [-> | [v Hv]].
      + rewrite str_eqb_refl in E. discriminate E.
      + unfold SENTINEL. rewrite (replace_sentinel_numeric t $"nan" v Hv), Hv.
        reflexivity. }
  split; [exact Hread|].
  rewrite <- rstrip_sentinel. apply py_float_rstrip, Hread.
Qed.

(** C6: when every sample token of the frame is numeric or the sentinel,
    and the start of the window can be computed, [parse_insert] appends the
    readings of the tokens in order ([nan] for the sentinel), sets the two
    times as [insert] does, and warns of nothing.  In particular the frame
    ["meta,1.0,2.0,FFFFFFF,3.0"] appends [1.0, 2.0, nan, 3.0]. *)
Theorem parse_insert_appends_readings :
  (forall (self : LaserData) (data : str) (now start : datetime),
      (forall t, In t (sample_tokens data) -> t = SENTINEL \/ numeric t) ->
      window_start (MetaData self)
        (Z.of_nat (length (Data self ++ map sample_value (sample_tokens data)))) now
      = inr start ->
      parse_insert self data now
      = (inr tt,
         {| Data := Data self ++ map sample_value (sample_tokens data);
            MetaData := MetaData self; StartTime := start; EndTime := now |},
         []))
  /\ (forall (self : LaserData) (now start : datetime),
        window_start (MetaData self) (Z.of_nat (length (Data self) + 4)) now
        = inr start ->
        parse_insert self $"meta,1.0,2.0,FFFFFFF,3.0" now
        = (inr tt,
           {| Data := Data self ++ [1; 2; nan; 3]%float;
              MetaData := MetaData self; StartTime := start; EndTime := now |},
           [])).
Proof.
  assert (General : forall self data now start,
             (forall t, In t (sample_tokens data) -> t = SENTINEL \/ numeric t) ->
             window_start (MetaData self)
               (Z.of_nat (length (Data self ++ map sample_value (sample_tokens data)))) now
             = inr start ->
             parse_insert self data now
             = (inr tt,
                {| Data := Data self ++ map sample_value (sample_tokens data);
                   MetaData := MetaData self; StartTime := start; EndTime := now |},
                [])).
  { intros self data now start Hall Hstart.
    unfold parse_insert. rewrite (parse_accepted data Hall).
    rewrite (insert_defined self _ now start Hstart). reflexivity. }
  split; [exact General|].
  intros self now start Hstart.
  apply (General self $"meta,1.0,2.0,FFFFFFF,3.0" now start).
  - intros t Hin. vm_compute in Hin.
    destruct Hin as [<-|[<-|[<-|[<-|[]]]]];
      try (left; reflexivity); right; eexists; vm_compute; reflexivity.
  - rewrite length_app. exact Hstart.
Qed.

Lemma parse_insert_appends_readings_witness :
  exists self self',
    LaserData_init 63000000000000000 63000000000000001 = inr self
    /\ parse_insert self $"meta,1.0,2.0,FFFFFFF,3.0" 63000000005000000
       = (inr tt, self', [])
    /\ Data self' = [1; 2; nan; 3]%float
    /\ StartTime self' = 63000000004996000
    /\ EndTime self' = 63000000005000000.
Proof.
  destruct (LaserData_init 63000000000000000 63000000000000001) as [e|self] eqn:Hi;
    [discriminate Hi|].
  assert (Hd : Data self = []) by (injection Hi as <-; reflexivity).
  assert (Hdt : dt (MetaData self) = inr (Computed 0.001%float))
    by (injection Hi as <-; reflexivity).
  assert (Hs : window_start (MetaData self) (Z.of_nat (length (Data self) + 4))
                 63000000005000000 = inr 63000000004996000).
  { rewrite Hd. unfold window_start. rewrite Hdt. vm_compute. reflexivity. }
  eexists self, _. split; [reflexivity|]. split.
  - apply (proj2 parse_insert_appends_readings self _ _ Hs).
  - simpl. rewrite Hd. auto.
Defined.

(** C5, as the code has it: when some sample token of the frame, the white
    space around the frame left aside and each occurrence of ["FFFFFFF"] in
    the token replaced by ["nan"], is not accepted by [float],
    [parse_insert] returns with the object unchanged and one warning, which
    shows the first ten and the last ten characters of the raw frame. *)
Theorem parse_insert_rejects_frame (self : LaserData) (data : str) (now : datetime) :
  (exists t, In t (sample_tokens (strip data))
             /\ ~ numeric (replace SENTINEL $"nan" t)) ->
  parse_insert self data now
  = (inr tt, self,
     [InvalidData (ExStr (slice_to 10 data)) (ExStr (slice_last 10 data))]).
Proof.
  intros (t & Hin & Hbad).
  apply (parse_rejected self data now t Hin).
  intros v Hv. apply Hbad. exists v. exact Hv.
Qed.

Lemma parse_insert_rejects_frame_witness :
  exists self,
    LaserData_init 63000000000000000 63000000000000001 = inr self
    /\ parse_insert self $"meta,1.0,oops,3.0" 63000000005000000
       = (inr tt, self, [InvalidData (ExStr $"meta,1.0,o") (ExStr $"0,oops,3.0")]).
Proof.
  destruct (LaserData_init 63000000000000000 63000000000000001) as [e|self] eqn:Hi;
    [discriminate Hi|].
  exists self. split; [reflexivity|].
  apply (parse_insert_rejects_frame self $"meta,1.0,oops,3.0" 63000000005000000).
  exists $"oops". split; [vm_compute; tauto|].
  intros [v Hv]. vm_compute in Hv. discriminate Hv.
Defined.

(** C5 as worded fails on both counts.  The token ["-FFFFFFF"] is neither
    numeric nor the sentinel, yet the frame ["meta,-FFFFFFF"] is taken and a
    [nan] appended.  And what the warning shows are characters: two rejected
    frames whose first ten tokens differ get the same warning. *)
Lemma parse_insert_rejection_as_worded_fails :
  exists self self',
    LaserData_init 63000000000000000 63000000000000001 = inr self
    /\ (In $"-FFFFFFF" (sample_tokens $"meta,-FFFFFFF")
        /\ $"-FFFFFFF" <> SENTINEL
        /\ py_float $"-FFFFFFF" = inl ValueError
        /\ parse_insert self $"meta,-FFFFFFF" 63000000005000000 = (inr tt, self', [])
        /\ Data self' = [nan])
    /\ (let f1 := $"meta,1,2,3,4,5,oops,7,8,9,10,11,12" in
        let f2 := $"meta,1,2,3,4,6,oops,7,8,9,10,11,12" in
        let w := [InvalidData (ExStr $"meta,1,2,3") (ExStr $"9,10,11,12")] in
        parse_insert self f1 63000000005000000 = (inr tt, self, w)
        /\ parse_insert self f2 63000000005000000 = (inr tt, self, w)
        /\ firstn 10 (split "," f1) <> firstn 10 (split "," f2)).
Proof.
  destruct (LaserData_init 63000000000000000 63000000000000001) as [e|self] eqn:Hi;
    [discriminate Hi|].
  assert (Hd : Data self = []) by (injection Hi as <-; reflexivity).
  assert (Hdt : dt (MetaData self) = inr (Computed 0.001%float))
    by (injection Hi as <-; reflexivity).
  assert (Hs : window_start (MetaData self) 1 63000000005000000 = inr 63000000004999000).
  { unfold window_start. rewrite Hdt. vm_compute. reflexivity. }
  eexists self, _. split; [reflexivity|]. split.
  - split; [vm_compute; tauto|]. split; [discriminate|]. split; [reflexivity|].
    split.
    + unfold parse_insert.
      replace (mapM py_float (tl (split "," (strip (replace SENTINEL $"nan" $"meta,-FFFFFFF")))))
        with (@inr exn (list float) [nan]) by (vm_compute; reflexivity).
      rewrite (insert_defined self [nan] 63000000005000000 63000000004999000);
        [reflexivity|].
      rewrite Hd. exact Hs.
    + simpl. rewrite Hd. reflexivity.
  - cbv zeta. split; [|split].
    + rewrite (parse_rejected self $"meta,1,2,3,4,5,oops,7,8,9,10,11,12"
                 63000000005000000 $"oops"); [reflexivity | vm_compute; tauto|].
      intros v Hv. vm_compute in Hv. discriminate Hv.
    + rewrite (parse_rejected self $"meta,1,2,3,4,6,oops,7,8,9,10,11,12"
                 63000000005000000 $"oops"); [reflexivity | vm_compute; tauto|].
      intros v Hv. vm_compute in Hv. discriminate Hv.
    + vm_compute. intros H. discriminate H.
Qed.

(** C10: a frame that ends with the delimiter has an empty last token,
    which [float] refuses, so the frame is dropped whatever the other tokens
    are: the object is unchanged and the warning is issued. *)
Theorem parse_insert_trailing_delimiter (self : LaserData) (data : str) (now : datetime) :
  last (sample_tokens (data ++ $",")) $"x" = []
  /\ py_float [] = inl ValueError
  /\ parse_insert self (data ++ $",") now
     = (inr tt, self,
        [InvalidData (ExStr (slice_to 10 (data ++ $",")))
           (ExStr (slice_last 10 (data ++ $",")))]).
Proof.
  assert (Htok : exists ts, sample_tokens (data ++ $",") = ts ++ [[]]).
  { unfold sample_tokens. change $"," with [","%char].
    rewrite split_trailing_sep.
    destruct (split "," data) as [|t ts] eqn:E; [now apply split_not_nil in E|].
    exists ts. reflexivity. }
  destruct Htok as [ts Hts].
  split; [rewrite Hts; apply last_last|]. split; [reflexivity|].
  apply (parse_rejected self _ now []).
  - rewrite sample_tokens_strip, Hts, on_last_snoc. apply in_or_app. right. now left.
  - intros v Hv. vm_compute in Hv. discriminate Hv.
Qed.

(** *** [timeseries] *)

(** What [np.nan_to_num] does to one sample. *)
Lemma nan_to_num_cases (x : float) :
  (is_nan x = true -> nan_to_num x = zero)
  /\ (is_nan x = false -> (x =? infinity)%float = true -> nan_to_num x = max_float)
  /\ (is_nan x = false -> (x =? infinity)%float = false ->
      (x =? neg_infinity)%float = true -> nan_to_num x = (- max_float)%float)
  /\ (is_nan x = false -> (x =? infinity)%float = false ->
      (x =? neg_infinity)%float = false -> nan_to_num x = x).
Proof.
  unfold nan_to_num.
  split; [|split; [|split]]; intros; repeat match goal with
    | H : _ = _ |- _ => rewrite H; clear H
    end; reflexivity.
Qed.

(** With a [nan] in the buffer an infinite sample is not handed over
    unchanged. *)
Lemma timeseries_changes_infinity :
  exists m self ts,
    LaserMetaData_init = inr m
    /\ self = {| Data := [nan; infinity]; MetaData := m;
                 StartTime := unix_epoch; EndTime := unix_epoch |}
    /\ has_nan self = true
    /\ timeseries self = (inr ts, self, [NaNReplaced])
    /\ ts_data ts = [zero; max_float]
    /\ map zero_at_nan (Data self) = [zero; infinity]
    /\ ts_data ts <> map zero_at_nan (Data self).
Proof.
  destruct LaserMetaData_init as [e|m] eqn:Hi; [discriminate Hi|].
  assert (Hdt : dt m = inr (Computed 0.001%float)) by (injection Hi as <-; reflexivity).
  eexists m, _, _. split; [reflexivity|]. split; [reflexivity|].
  split; [reflexivity|].
  split; [unfold timeseries; simpl; rewrite Hdt; reflexivity|].
  split; [reflexivity|]. split; [reflexivity|].
  intros H.
  apply (f_equal (fun l => match l with
                           | [_; y] => is_infinity y
                           | _ => false
                           end)) in H.
  vm_compute in H. discriminate H.
Qed.

(** Without a [nan] the same infinite sample is handed over as it is. *)
Lemma timeseries_keeps_infinity :
  exists m self ts,
    LaserMetaData_init = inr m
    /\ self = {| Data := [infinity]; MetaData := m;
                 StartTime := unix_epoch; EndTime := unix_epoch |}
    /\ has_nan self = false
    /\ timeseries self = (inr ts, self, [])
    /\ ts_data ts = [infinity].
Proof.
  destruct LaserMetaData_init as [e|m] eqn:Hi; [discriminate Hi|].
  assert (Hdt : dt m = inr (Computed 0.001%float)) by (injection Hi as <-; reflexivity).
  eexists m, _, _. split; [reflexivity|]. split; [reflexivity|].
  split; [reflexivity|].
  split; [unfold timeseries; simpl; rewrite Hdt; reflexivity|].
  reflexivity.
Qed.

(** C8 (the code departs from it): whenever [dt] can be read, [timeseries]
    returns and leaves the object as it was.  Without a [nan] it hands the
    buffer over as it is and does not warn.  With a [nan] it warns once and
    hands over the buffer after [np.nan_to_num], which puts zero for every
    [nan] but also the largest finite value of the same sign for every
    infinity: the buffer [[nan, inf]] is handed over as
    [[0, 1.7976931348623157e308]], not as [[0, inf]], while the buffer
    [[inf]] is handed over unchanged. *)
Theorem timeseries_replaces_nonfinite :
  (forall (self : LaserData) (q : attr float),
      dt (MetaData self) = inr q ->
      exists ts,
        timeseries self = (inr ts, self, if has_nan self then [NaNReplaced] else [])
        /\ ts_dt ts = q
        /\ ts_t0 ts = timestamp (StartTime self)
        /\ (has_nan self = true -> ts_data ts = map nan_to_num (Data self))
        /\ (has_nan self = false -> ts_data ts = Data self))
  /\ (forall x,
        (is_nan x = true -> nan_to_num x = zero)
        /\ (is_nan x = false -> (x =? infinity)%float = true ->
            nan_to_num x = max_float)
        /\ (is_nan x = false -> (x =? infinity)%float = false ->
            (x =? neg_infinity)%float = true -> nan_to_num x = (- max_float)%float)
        /\ (is_nan x = false -> (x =? infinity)%float = false ->
            (x =? neg_infinity)%float = false -> nan_to_num x = x))
  /\ (exists m self ts,
        LaserMetaData_init = inr m
        /\ self = {| Data := [nan; infinity]; MetaData := m;
                     StartTime := unix_epoch; EndTime := unix_epoch |}
        /\ has_nan self = true
        /\ timeseries self = (inr ts, self, [NaNReplaced])
        /\ ts_data ts = [zero; max_float]
        /\ map zero_at_nan (Data self) = [zero; infinity]
        /\ ts_data ts <> map zero_at_nan (Data self))
  /\ (exists m self ts,
        LaserMetaData_init = inr m
        /\ self = {| Data := [infinity]; MetaData := m;
                     StartTime := unix_epoch; EndTime := unix_epoch |}
        /\ has_nan self = false
        /\ timeseries self = (inr ts, self, [])
        /\ ts_data ts = [infinity]).
Proof.
  split; [|split; [exact nan_to_num_cases|split;
    [exact timeseries_changes_infinity | exact timeseries_keeps_infinity]]].
  intros self q Hdt. unfold timeseries. rewrite Hdt. cbn [bind ret].
  destruct (has_nan self); eexists; (split; [reflexivity|]); simpl;
    (split; [reflexivity|]); (split; [reflexivity|]);
    (split; [intros H; try discriminate H; reflexivity|]);
    intros H; try discriminate H; reflexivity.
Qed.

Lemma timeseries_replaces_nonfinite_witness :
  exists self ts,
    Data self = [1.5; nan; neg_infinity; 2]%float
    /\ timeseries self = (inr ts, self, [NaNReplaced])
    /\ ts_data ts = [1.5; 0; - max_float; 2]%float
    /\ ts_dt ts = Computed 0.001%float.
Proof.
  destruct LaserMetaData_init as [e|m] eqn:Hi; [discriminate Hi|].
  assert (Hdt : dt m = inr (Computed 0.001%float)) by (injection Hi as <-; reflexivity).
  set (self := {| Data := [1.5; nan; neg_infinity; 2]%float; MetaData := m;
                  StartTime := unix_epoch; EndTime := unix_epoch |}).
  destruct (proj1 timeseries_replaces_nonfinite self (Computed 0.001%float) Hdt)
    as (ts & Hts & Hv & _ & Hnan & _).
  exists self, ts. split; [reflexivity|]. split; [exact Hts|].
  split; [rewrite Hnan; reflexivity | exact Hv].
Defined.

End LaserDataSpec.

(* ------------------------------------------------------------------ *)
(** ** [FileManager.filepath]: the shape of the paths *)

Module FileManagerPaths.
Import Py PyFacts FileManager FileManagerSpec.

Lemma is_digit_not_slash (s : str) : forallb is_digit s = true -> ~ In "/"%char s.
Proof.
  intros H Hin. rewrite forallb_forall in H. specialize (H _ Hin). discriminate H.
Qed.

(** A component made of digits is kept by [pathlib] as it is. *)
Lemma digits_component (w : nat) (s : str) :
  digits_of_width (S w) s = true ->
  ~ In "/"%char s /\ str_eqb s [] || str_eqb s $"." = false.
Proof.
  unfold digits_of_width. intros H. apply andb_prop in H as [Hl Hd].
  split; [apply is_digit_not_slash, Hd|].
  destruct s as [|c r]; [discriminate Hl|].
  apply orb_false_iff. split; [reflexivity|].
  apply str_eqb_neq. intros E. injection E as -> _. discriminate Hd.
Qed.

(** The three fields of a date are printed with four, two and two digits. *)
Lemma format_year (y : Z) : 1 <= y <= 9999 -> digits_of_width 4 (format_d 4 y) = true.
Proof.
  intros Hy.
  assert (Hall : forallb (fun n => digits_of_width 4 (format_d 4 (Z.of_nat n)))
                   (seq 1 (Z.to_nat 9999)) = true) by (vm_compute; reflexivity).
  rewrite forallb_forall in Hall.
  rewrite <- (Z2Nat.id y) by lia. apply Hall, in_seq. lia.
Qed.

Lemma format_month_day (n : Z) : 1 <= n <= 31 -> digits_of_width 2 (format_d 2 n) = true.
Proof.
  intros Hn.
  assert (Hall : forallb (fun k => digits_of_width 2 (format_d 2 (Z.of_nat k)))
                   (seq 1 31) = true) by (vm_compute; reflexivity).
  rewrite forallb_forall in Hall.
  rewrite <- (Z2Nat.id n) by lia. apply Hall, in_seq. lia.
Qed.

Lemma path_names_date (d : date) :
  valid_date d -> path_names (date_segment d) = date_parts d.
Proof.
  intros (Hy & Hm & Hd).
  destruct (digits_component 3 _ (format_year (year d) Hy)) as [Fy Ky].
  destruct (digits_component 1 _ (format_month_day (month d) ltac:(lia))) as [Fm Km].
  destruct (digits_component 1 _ (format_month_day (day d) Hd)) as [Fd Kd].
  unfold path_names, date_segment, date_parts, slash.
  rewrite (split_app_sep "/" _ _ Fy), (split_app_sep "/" _ _ Fm), (split_free "/" _ Fd).
  cbn [filter]. rewrite Ky, Km, Kd. reflexivity.
Qed.

(** X1: on the first call of a day, whatever the object held before, the path
    is the root, the directory of the tag, and the year, month and day in
    four, two and two digits. *)
Theorem filepath_new_day (self : FileManager) (tag : str) (today : date) :
  date_differs today (current_date self) = true ->
  valid_date today ->
  exists self',
    filepath self tag today
    = (inr (root_path self ++ known_tag tag :: date_parts today), self')
    /\ current_date self' = Some today
    /\ current_path self' = slash (known_tag tag) (date_segment today)
    /\ digits_of_width 4 (format_d 4 (year today)) = true
    /\ digits_of_width 2 (format_d 2 (month today)) = true
    /\ digits_of_width 2 (format_d 2 (day today)) = true.
Proof.
  intros Hnew Hvalid. rewrite filepath_eq, Hnew. cbv zeta.
  rewrite truediv_tag, (path_names_date today Hvalid).
  eexists. split; [reflexivity|]. cbn [current_date current_path].
  destruct Hvalid as (Hy & Hm & Hd).
  repeat split; try reflexivity.
  - apply format_year, Hy.
  - apply format_month_day. lia.
  - apply format_month_day, Hd.
Qed.

Lemma filepath_new_day_witness :
  exists self',
    filepath (FileManager_init (Path_of $"/data/data/")) $" Calibration"
      {| year := 987; month := 3; day := 9 |}
    = (inr (Path_of $"/data/data/calibration/0987/03/09"), self')
    /\ current_date self' = Some {| year := 987; month := 3; day := 9 |}.
Proof.
  destruct (filepath_new_day (FileManager_init (Path_of $"/data/data/")) $" Calibration"
              {| year := 987; month := 3; day := 9 |} eq_refl)
    as (self' & H & Hd & _).
  { unfold valid_date. simpl. lia. }
  exists self'. split; [exact H | exact Hd].
Defined.

(** X2: [filepath] always returns, and with a path below the root: the root is
    followed by the directory of the tag, whatever [current_path] held. *)
Theorem filepath_stays_under_root (self : FileManager) (tag : str) (today : date) :
  exists rest self',
    filepath self tag today = (inr (root_path self ++ known_tag tag :: rest), self')
    /\ root_path self' = root_path self
    /\ current_full_path self' = root_path self ++ known_tag tag :: rest
    /\ current_date self' = Some today.
Proof.
  rewrite filepath_eq. cbv zeta. rewrite truediv_tag.
  eexists. eexists. split; [reflexivity|]. cbn [root_path current_full_path current_date].
  split; [reflexivity|]. split; [reflexivity|].
  unfold date_differs. destruct (current_date self) as [d|]; [|reflexivity].
  destruct (date_eqb today d) eqn:E; [|reflexivity].
  simpl. apply date_eqb_eq in E. congruence.
Qed.

(** While the date stays the one in the cache, every call puts its tag in
    front of what the calls before it left. *)
Lemma filepath_run_cached (today : date) (tags : list str) (self : FileManager) :
  date_differs today (current_date self) = false ->
  let s := filepath_run self tags today in
  root_path s = root_path self
  /\ date_differs today (current_date s) = false
  /\ path_names (current_path s)
     = rev (map known_tag tags) ++ path_names (current_path self).
Proof.
  revert self. induction tags as [|t r IH]; intros self Hc; cbv zeta.
  - simpl. auto.
  - unfold filepath_run. cbn [fold_left]. fold (filepath_run (snd (filepath self t today)) r today).
    pose proof (filepath_caches_date self t today) as Hc1.
    destruct (IH (snd (filepath self t today)) Hc1) as (Hr & Hd & Hn).
    split; [rewrite Hr, filepath_eq; reflexivity|]. split; [exact Hd|].
    rewrite Hn, filepath_eq, Hc. cbn [snd current_path].
    rewrite path_names_tag. cbn [map rev]. rewrite <- app_assoc. reflexivity.
Qed.

(** X3: the calls of one day pile up: after calls with the tags [tags], a call
    with the tag [t] returns the root, then the directory of [t], then those
    of the earlier calls, the latest first, then the date. *)
Theorem filepath_run_accumulates (self : FileManager) (tags : list str) (t : str)
  (today : date) :
  date_differs today (current_date self) = true ->
  valid_date today ->
  fst (filepath (filepath_run self tags today) t today)
  = inr (root_path self ++ known_tag t :: rev (map known_tag tags) ++ date_parts today).
Proof.
  intros Hnew Hvalid. destruct tags as [|t0 r].
  - simpl. rewrite filepath_eq, Hnew. cbv zeta. cbn [fst].
    rewrite truediv_tag, (path_names_date today Hvalid). reflexivity.
  - unfold filepath_run. cbn [fold_left].
    fold (filepath_run (snd (filepath self t0 today)) r today).
    pose proof (filepath_caches_date self t0 today) as Hc1.
    destruct (filepath_run_cached today r _ Hc1) as (Hr & Hd & Hn).
    rewrite (filepath_eq (filepath_run (snd (filepath self t0 today)) r today)), Hd.
    cbv zeta. cbn [fst].
    rewrite truediv_tag, Hr, Hn.
    rewrite filepath_eq, Hnew. cbn [snd root_path current_path].
    rewrite path_names_tag, (path_names_date today Hvalid).
    cbn [map rev]. rewrite <- app_assoc. reflexivity.
Qed.

Lemma filepath_run_accumulates_witness :
  fst (filepath
         (filepath_run (FileManager_init (Path_of $"/data/data/"))
            [$"test"; $"temp"] {| year := 2024; month := 1; day := 2 |})
         $"Experiment" {| year := 2024; month := 1; day := 2 |})
  = inr (Path_of $"/data/data/experiment/temp/test/2024/01/02").
Proof.
  apply (filepath_run_accumulates (FileManager_init (Path_of $"/data/data/"))
           [$"test"; $"temp"] $"Experiment" {| year := 2024; month := 1; day := 2 |}).
  - reflexivity.
  - unfold valid_date. simpl. lia.
Defined.

End FileManagerPaths.

(* ------------------------------------------------------------------ *)
(** ** [FileHandler] *)

Module FileHandlerSpec.
Import Py PyFacts FileManager FileManagerSpec FileManagerPaths FileHandler.

Lemma strftime_plain (n : str) (d : date) :
  forallb plain_char n = true -> strftime_from false n d = Some n.
Proof.
  induction n as [|c r IH]; intros H; [reflexivity|].
  cbn [forallb] in H. apply andb_prop in H as [Hc Hr].
  cbn [strftime_from]. destruct (ascii_dec c "%") as [->|_]; [discriminate Hc|].
  rewrite Hc, (IH Hr). reflexivity.
Qed.

(** The format of [FileHandler]: the date, an underscore, and the base
    name copied as it is when it is plain. *)
Lemma strftime_stamp (n : str) (d : date) :
  1000 <= year d -> forallb plain_char n = true ->
  strftime ($"%Y%m%d_" ++ n) d = Some (date_stamp d ++ "_"%char :: n).
Proof.
  intros Hy Hn. unfold strftime, date_stamp.
  change ($"%Y%m%d_" ++ n)
    with ("%"%char :: "Y"%char :: "%"%char :: "m"%char :: "%"%char :: "d"%char
          :: "_"%char :: n).
  change (strftime_from false
            ("%"%char :: "Y"%char :: "%"%char :: "m"%char :: "%"%char :: "d"%char
             :: "_"%char :: n) d)
    with (if 1000 <=? year d
          then option_map (app (decimal (year d)))
                 (option_map (app (format_d 2 (month d)))
                    (option_map (app (format_d 2 (day d)))
                       (option_map (app ["_"%char]) (strftime_from false n d))))
          else None).
  replace (1000 <=? year d) with true by (symmetry; apply Z.leb_le; exact Hy).
  rewrite (strftime_plain n d Hn). cbn [option_map].
  rewrite <- !app_assoc. reflexivity.
Qed.

Lemma decimal_year (y : Z) :
  1000 <= y <= 9999 -> digits_of_width 4 (decimal y) = true.
Proof.
  intros Hy.
  assert (Hall : forallb (fun n => digits_of_width 4 (decimal (Z.of_nat n)))
                   (seq 1000 (Z.to_nat 9000)) = true) by (vm_compute; reflexivity).
  rewrite forallb_forall in Hall.
  rewrite <- (Z2Nat.id y) by lia. apply Hall, in_seq. lia.
Qed.

(** A name that starts with the date and holds no slash is one component
    of a relative path. *)
Lemma stamped_component (d : date) (n : str) :
  valid_date d -> 1000 <= year d -> ~ In "/"%char n ->
  path_root (date_stamp d ++ "_"%char :: n) = []
  /\ path_names (date_stamp d ++ "_"%char :: n) = [date_stamp d ++ "_"%char :: n].
Proof.
  intros (Hy & Hm & Hd) Hy' Hn.
  pose proof (decimal_year (year d) ltac:(lia)) as Dy.
  pose proof (format_month_day (month d) ltac:(lia)) as Dm.
  pose proof (format_month_day (day d) Hd) as Dd.
  unfold date_stamp. unfold digits_of_width in Dy.
  apply andb_prop in Dy as [Ly Fy]. apply is_digit_not_slash in Fy.
  apply andb_prop in Dm as [_ Fm]. apply is_digit_not_slash in Fm.
  apply andb_prop in Dd as [_ Fd]. apply is_digit_not_slash in Fd.
  destruct (decimal (year d)) as [|c1 yy]; [discriminate Ly|].
  assert (N1 : c1 <> "/"%char) by (intros ->; apply Fy; now left).
  split.
  - cbn [app]. destruct yy as [|c2 [|c3 yy]]; try discriminate Ly.
    cbn [app path_root]. destruct (ascii_dec c1 "/"); [contradiction | reflexivity].
  - unfold path_names. rewrite split_free.
    + cbn [filter app]. unfold str_eqb.
      destruct (list_eq_dec ascii_dec _ []) as [E|_]; [discriminate E|].
      destruct (list_eq_dec ascii_dec _ $".") as [E|_].
      * exfalso. destruct yy; [discriminate Ly | discriminate E].
      * reflexivity.
    + intros Hin. apply in_app_or in Hin as [Hin | Hin].
      * apply in_app_or in Hin as [Hin | Hin]; [now apply Fy|].
        apply in_app_or in Hin as [Hin | Hin]; [now apply Fm | now apply Fd].
      * destruct Hin as [Hin|Hin]; [discriminate Hin | now apply Hn].
Qed.

(** [FileHandler(...)] in one equation, for a plain base name. *)
Lemma FileHandler_init_eq (fm : FileManager.FileManager) (name : option str)
  (tg : str) (d1 d2 : date) :
  1000 <= year d1 -> forallb plain_char (base_name name) = true ->
  let file := date_stamp d1 ++ "_"%char :: base_name name in
  let dir := root_path fm ++ known_tag tg
               :: path_names (if date_differs d2 (current_date fm)
                              then date_segment d2 else current_path fm) in
  FileHandler_init fm name tg d1 d2
  = Some (inr {| tag := tg; filename := file; _file := truediv dir file |},
          snd (filepath fm tg d2)).
Proof.
  intros Hy Hn. cbv zeta. unfold FileHandler_init. cbv zeta.
  rewrite (strftime_stamp _ d1 Hy Hn).
  rewrite filepath_eq. cbv zeta. rewrite truediv_tag. reflexivity.
Qed.

(** X4: the file of a handler is named by the date of the first reading of the
    clock, an underscore and the base name: ["data"] when no name or an
    empty one is given, the name stripped and in lower case otherwise, so
    that a name of white space only leaves nothing after the underscore. *)
Theorem FileHandler_names_file (fm : FileManager.FileManager) (name : option str)
  (tg : str) (d1 d2 : date) :
  1000 <= year d1 -> forallb plain_char (base_name name) = true ->
  (exists h fm',
      FileHandler_init fm name tg d1 d2 = Some (inr h, fm')
      /\ tag h = tg
      /\ filename h = date_stamp d1 ++ "_"%char :: base_name name
      /\ fm' = snd (filepath fm tg d2))
  /\ base_name None = $"data"
  /\ base_name (Some []) = $"data"
  /\ (forall f, f <> [] -> base_name (Some f) = lower (strip f))
  /\ (forall ws, blank ws -> base_name (Some ws) = [] \/ ws = []).
Proof.
  intros Hy Hn. split; [|split; [|split; [|split]]].
  - rewrite (FileHandler_init_eq fm name tg d1 d2 Hy Hn).
    eexists. eexists. split; [reflexivity|]. cbn [tag filename]. auto.
  - reflexivity.
  - reflexivity.
  - intros [|c r] Hne; [congruence | reflexivity].
  - intros [|c r] Hb; [now right|]. left. cbn [base_name]. unfold strip.
    rewrite <- (app_nil_r (c :: r)), (lstrip_blank (c :: r) [] Hb). reflexivity.
Qed.

Lemma FileHandler_names_file_witness :
  exists h fm',
    FileHandler_init (FileManager_init (Path_of $"/data/data/")) (Some $" Run_7 ")
      $"experiment" {| year := 2024; month := 1; day := 2 |}
      {| year := 2024; month := 1; day := 2 |}
    = Some (inr h, fm')
    /\ filename h = $"20240102_run_7".
Proof.
  destruct (proj1 (FileHandler_names_file (FileManager_init (Path_of $"/data/data/"))
                     (Some $" Run_7 ") $"experiment"
                     {| year := 2024; month := 1; day := 2 |}
                     {| year := 2024; month := 1; day := 2 |}
                     ltac:(simpl; lia) eq_refl))
    as (h & fm' & Hi & _ & Hf & _).
  exists h, fm'. split; [exact Hi | exact Hf].
Defined.

(** X5: all handlers go through one [FileManager].  For two handlers made on
    the same day, the first call of that day, the file of the first lies in
    [root/tag1/YYYY/MM/DD] and the file of the second in
    [root/tag2/tag1/YYYY/MM/DD]; each file is one component below its
    directory when the base name holds no slash. *)
Theorem FileHandler_shared_manager (fm : FileManager.FileManager)
  (n1 n2 : option str) (t1 t2 : str) (today : date) :
  date_differs today (current_date fm) = true ->
  valid_date today -> 1000 <= year today ->
  forallb plain_char (base_name n1) = true -> ~ In "/"%char (base_name n1) ->
  forallb plain_char (base_name n2) = true -> ~ In "/"%char (base_name n2) ->
  exists h1 fm1 h2 fm2,
    FileHandler_init fm n1 t1 today today = Some (inr h1, fm1)
    /\ FileHandler_init fm1 n2 t2 today today = Some (inr h2, fm2)
    /\ _file h1 = root_path fm ++ known_tag t1 :: date_parts today ++ [filename h1]
    /\ _file h2 = root_path fm ++ known_tag t2 :: known_tag t1
                    :: date_parts today ++ [filename h2].
Proof.
  intros Hnew Hvalid Hy P1 S1 P2 S2.
  destruct (stamped_component today (base_name n1) Hvalid Hy S1) as [R1 N1].
  destruct (stamped_component today (base_name n2) Hvalid Hy S2) as [R2 N2].
  pose proof (filepath_caches_date fm t1 today) as Hc.
  eexists. eexists. eexists. eexists.
  split; [apply (FileHandler_init_eq fm n1 t1 today today Hy P1)|].
  split; [apply (FileHandler_init_eq _ n2 t2 today today Hy P2)|].
  cbn [_file filename]. rewrite Hc, Hnew.
  unfold truediv. rewrite R1, R2, N1, N2.
  rewrite (path_names_date today Hvalid).
  rewrite filepath_eq, Hnew. cbn [snd root_path current_path].
  rewrite path_names_tag, (path_names_date today Hvalid).
  split.
  - rewrite <- app_assoc. reflexivity.
  - rewrite <- app_assoc. reflexivity.
Qed.

Lemma FileHandler_shared_manager_witness :
  exists h1 fm1 h2 fm2,
    FileHandler_init (FileManager_init (Path_of $"/data/data/")) None $"test"
      {| year := 2024; month := 1; day := 2 |} {| year := 2024; month := 1; day := 2 |}
    = Some (inr h1, fm1)
    /\ FileHandler_init fm1 (Some $"Scan") $"test"
         {| year := 2024; month := 1; day := 2 |} {| year := 2024; month := 1; day := 2 |}
       = Some (inr h2, fm2)
    /\ _file h1 = Path_of $"/data/data/test/2024/01/02/20240102_data"
    /\ _file h2 = Path_of $"/data/data/test/test/2024/01/02/20240102_scan".
Proof.
  destruct (FileHandler_shared_manager (FileManager_init (Path_of $"/data/data/"))
              None (Some $"Scan") $"test" $"test"
              {| year := 2024; month := 1; day := 2 |})
    as (h1 & fm1 & h2 & fm2 & H1 & H2 & F1 & F2).
  - reflexivity.
  - unfold valid_date. simpl. lia.
  - simpl. lia.
  - reflexivity.
  - vm_compute. intros H. repeat (destruct H as [H|H]; [discriminate H|]). exact H.
  - reflexivity.
  - vm_compute. intros H. repeat (destruct H as [H|H]; [discriminate H|]). exact H.
  - exists h1, fm1, h2, fm2. split; [exact H1|]. split; [exact H2|].
    injection H1 as <- _. split; [exact F1|].
    rewrite F2. injection H2 as <- _. reflexivity.
Defined.

End FileHandlerSpec.

(* ------------------------------------------------------------------ *)
(** ** [BaseData] and more of [LaserMetaData] *)

Module MetaDataFacts.
Import Py PyFacts DataHandler LaserMetaDataSpec.

Lemma dict_get_remove_same {V} (d : dict V) (k : str) : dict_get (dict_remove d k) k = None.
Proof.
  induction d as [|[k' v] r IH]; simpl; [reflexivity|].
  destruct (str_eqb k' k) eqn:E; [exact IH|]. simpl. rewrite E. exact IH.
Qed.

Lemma dict_get_remove_other {V} (d : dict V) (k other : str) :
  other <> k -> dict_get (dict_remove d k) other = dict_get d other.
Proof.
  intros Hne. induction d as [|[k' v] r IH]; simpl; [reflexivity|].
  destruct (str_eqb k' k) eqn:E; simpl.
  - apply str_eqb_eq in E. subst k'.
    destruct (str_eqb k other) eqn:E2; [apply str_eqb_eq in E2; congruence | exact IH].
  - destruct (str_eqb k' other); [reflexivity | exact IH].
Qed.

(** X6: the attributes of a [BaseData]: an assignment is read back unless the
    name is a class attribute, in which case the class attribute is read
    whatever was assigned; other names are not affected; [del] removes the
    entry, after which reading it raises [KeyError], and raises [KeyError]
    itself when there is no entry. *)
Theorem BaseData_attributes (cls self : BaseData) (name : str) (v : pyval) :
  (dict_get cls name = None -> getattr cls (setattr self name v) name = inr v)
  /\ (forall c, dict_get cls name = Some c ->
                getattr cls (setattr self name v) name = inr c)
  /\ (forall other, other <> name ->
                    getattr cls (setattr self name v) other = getattr cls self other)
  /\ (dict_get self name = None -> delattr self name = inl KeyError)
  /\ (forall old, dict_get self name = Some old ->
        exists self',
          delattr self name = inr self'
          /\ (dict_get cls name = None -> getattr cls self' name = inl KeyError)
          /\ (forall other, other <> name ->
                            getattr cls self' other = getattr cls self other)).
Proof.
  unfold getattr, setattr, delattr, dict_del.
  split; [|split; [|split; [|split]]].
  - intros ->. rewrite dict_get_set_same. reflexivity.
  - intros c ->. reflexivity.
  - intros other Hne. rewrite dict_get_set_other by congruence. reflexivity.
  - intros ->. reflexivity.
  - intros old ->. eexists. split; [reflexivity|]. split.
    + intros ->. rewrite dict_get_remove_same. reflexivity.
    + intros other Hne. rewrite dict_get_remove_other by exact Hne. reflexivity.
Qed.

Lemma BaseData_attributes_witness :
  getattr class_attrs (setattr [] $"Scaling" (VStr $"x")) $"Scaling" = inr (VStr $"x")
  /\ getattr class_attrs (setattr [] $"CurrentProgram" (VInt 5)) $"CurrentProgram"
     = inr (VInt 0)
  /\ delattr [] $"Scaling" = inl KeyError.
Proof.
  pose proof (BaseData_attributes class_attrs [] $"Scaling" (VStr $"x")) as (H1 & _ & _ & H4 & _).
  pose proof (BaseData_attributes class_attrs [] $"CurrentProgram" (VInt 5)) as (_ & H2 & _).
  split; [apply H1; reflexivity|]. split; [apply (H2 (VInt 0)); reflexivity|].
  apply H4. reflexivity.
Defined.

(** [list.index] on a list that does not hold the key. *)
Lemma list_index_absent (keys : list str) (key : str) (i0 : Z) :
  ~ In key keys -> list_index keys key i0 = inl ValueError.
Proof.
  revert i0. induction keys as [|k r IH]; intros i0 Hn; simpl; [reflexivity|].
  destruct (str_eqb k key) eqn:E.
  - apply str_eqb_eq in E. exfalso. apply Hn. now left.
  - apply IH. intros H. apply Hn. now right.
Qed.

(** X7: [program_index] ties the template to a program: for a field of the
    template it returns the position at which the template holds the
    field and at which a program holds the value joined to the field's
    prefix in the resolved configuration; for any other name it raises
    [ValueError]. *)
Theorem program_index_position (key : str) :
  (In key (dict_keys RawConfig) ->
   exists i prefix,
     program_index key = inr i
     /\ nth_error RawConfig (Z.to_nat i) = Some (key, prefix)
     /\ forall prog value,
          length prog = length RawConfig -> index prog i = inr value ->
          dict_get (resolved RawConfig prog) key = Some (prefix ++ value))
  /\ (~ In key (dict_keys RawConfig) -> program_index key = inl ValueError).
Proof.
  split; [|apply list_index_absent].
  intros Hin. vm_compute in Hin.
  repeat (destruct Hin as [<- | Hin];
          [eexists; eexists; split; [vm_compute; reflexivity|];
           split; [vm_compute; reflexivity|];
           intros prog value Hlen Hv;
           do 12 (destruct prog as [|? prog]; [discriminate Hlen|]);
           destruct prog; [|discriminate Hlen];
           vm_compute in Hv; injection Hv as <-; vm_compute; reflexivity|]).
  destruct Hin.
Qed.

Lemma program_index_position_witness :
  program_index $"Filter" = inr 4
  /\ program_index $"Speed" = inl ValueError.
Proof.
  split.
  - destruct (proj1 (program_index_position $"Filter")) as (i & prefix & Hi & Hn & _).
    + vm_compute. tauto.
    + rewrite Hi. vm_compute in Hi. injection Hi as <-. reflexivity.
  - apply (proj2 (program_index_position $"Speed")).
    vm_compute. intros H. repeat (destruct H as [H|H]; [discriminate H|]). exact H.
Defined.

Lemma dict_set_same {V} (d : dict V) (k : str) (v : V) :
  dict_get d k = Some v -> dict_set d k v = d.
Proof.
  induction d as [|[k' v'] r IH]; simpl; [discriminate|].
  destruct (str_eqb k' k); [intros [= ->]; reflexivity|].
  intros H. rewrite (IH H). reflexivity.
Qed.

Lemma dict_update_same {V} (d o : dict V) :
  (forall k v, In (k, v) o -> dict_get d k = Some v) -> dict_update d o = d.
Proof.
  unfold dict_update. induction o as [|[k v] r IH]; intros H; simpl; [reflexivity|].
  rewrite dict_set_same by (apply H; now left).
  apply IH. intros k' v' Hin. apply H. now right.
Qed.

Lemma dict_get_In {V} (o : dict V) (k : str) (v : V) :
  NoDup (dict_keys o) -> In (k, v) o -> dict_get o k = Some v.
Proof.
  induction o as [|[k' v'] r IH]; simpl; intros Hnd Hin; [destruct Hin|].
  inversion Hnd as [|? ? Hnotin Hnd']; subst.
  destruct Hin as [[= -> ->] | Hin].
  - rewrite str_eqb_refl. reflexivity.
  - destruct (str_eqb k' k) eqn:E; [|apply IH; assumption].
    apply str_eqb_eq in E. subst k'. exfalso. apply Hnotin.
    apply (in_map fst) in Hin. exact Hin.
Qed.

Lemma program_below (p : Z) :
  p < Z.of_nat (length Programs) -> (p >=? Z.of_nat (length Programs)) = false.
Proof.
  intros H. destruct (p >=? Z.of_nat (length Programs)) eqn:E; [|reflexivity].
  apply Z.geb_le in E. lia.
Qed.

Lemma program0_fields_keys : NoDup (dict_keys program0_fields).
Proof.
  vm_compute.
  repeat (constructor;
          [intros H; repeat (destruct H as [H|H]; [discriminate H|]); exact H|]).
  constructor.
Qed.

(** [change_program] in one equation, for a number below the size of the
    catalogue. *)
Lemma change_program_eq (self : LaserMetaData) (p : Z) :
  p < Z.of_nat (length Programs) ->
  change_program self p
  = (inr tt, dict_update (setattr self $"CurrentProgram" (VInt p)) program0_fields).
Proof. intros H. unfold change_program. rewrite (program_below p H). reflexivity. Qed.

(** X8: every program number below the size of the catalogue is accepted, the
    negative ones too, and whatever the fields held before, they then hold
    the configuration of the first program: the sampling interval is one
    millisecond, the frequency 1000, the storage size 60000 and the waiting
    time 60.  The number is stored under ["CurrentProgram"]; entries under
    other names are left as they were. *)
Theorem change_program_restores_fields (self : LaserMetaData) (p : Z) :
  p < Z.of_nat (length Programs) ->
  exists self',
    change_program self p = (inr tt, self')
    /\ (forall key value,
          dict_get (resolved RawConfig (nth 0 Programs [])) key = Some value ->
          getattr class_attrs self' key = inr (VStr value))
    /\ dt self' = inr (Computed 0.001%float)
    /\ Frequency self' = inr (Computed 1000)
    /\ StorageSize self' = inr (Computed 60000)
    /\ WaitingTime self' = inr (Computed 60)
    /\ dict_get self' $"CurrentProgram" = Some (VInt p)
    /\ (forall key, ~ In key (dict_keys RawConfig) -> key <> $"CurrentProgram" ->
                    dict_get self' key = dict_get self key).
Proof.
  intros Hp. eexists. split; [apply (change_program_eq self p Hp)|].
  set (self' := dict_update (setattr self $"CurrentProgram" (VInt p)) program0_fields).
  assert (Hfield : forall key value,
             dict_get program0_fields key = Some value -> dict_get self' key = Some value).
  { intros key value H. apply dict_get_update; [apply program0_fields_keys | exact H]. }
  assert (Hcycle : dict_get self' $"SamplingCycle" = Some (VStr $"SW,CA,8"))
    by (apply Hfield; reflexivity).
  assert (Hstore : dict_get self' $"DataStorage" = Some (VStr $"SW,CF,0060000,1"))
    by (apply Hfield; reflexivity).
  assert (Hdt : dt self' = inr (Computed 0.001%float))
    by (rewrite (dt_cycle self' _ Hcycle); reflexivity).
  assert (Hst : StorageSize self' = inr (Computed 60000))
    by (rewrite (StorageSize_storage self' _ Hstore); reflexivity).
  split; [|split; [exact Hdt|split; [|split; [exact Hst|split; [|split]]]]].
  - intros key value Hg. unfold getattr.
    destruct (dict_get class_attrs key) as [c|] eqn:Hc.
    + exfalso. apply class_attrs_names in Hc as [-> | ->]; vm_compute in Hg; discriminate Hg.
    + rewrite (Hfield key (VStr value)); [reflexivity|].
      apply str_values_get. rewrite zip_config_resolved by apply RawConfig_keys_distinct.
      exact Hg.
  - rewrite (Frequency_computed self' _ Hdt). reflexivity.
  - rewrite (WaitingTime_computed self' _ _ Hdt Hst). reflexivity.
  - unfold self'. rewrite dict_get_update_other.
    + apply dict_get_set_same.
    + vm_compute. intros H. repeat (destruct H as [H|H]; [discriminate H|]). exact H.
  - intros key Hk Hcp. unfold self'. rewrite dict_get_update_other.
    + apply dict_get_set_other. congruence.
    + unfold program0_fields. rewrite str_values_keys.
      rewrite zip_config_resolved by apply RawConfig_keys_distinct.
      rewrite resolved_keys by reflexivity. exact Hk.
Qed.

Lemma change_program_restores_fields_witness :
  exists self',
    change_program [($"SamplingCycle", VStr $"undefined"); ($"Note", VInt 3)] (-7)
    = (inr tt, self')
    /\ dt self' = inr (Computed 0.001%float)
    /\ dict_get self' $"Note" = Some (VInt 3).
Proof.
  destruct (change_program_restores_fields
              [($"SamplingCycle", VStr $"undefined"); ($"Note", VInt 3)] (-7))
    as (self' & H & _ & Hdt & _ & _ & _ & _ & Hother).
  - simpl. lia.
  - exists self'. split; [exact H|]. split; [exact Hdt|].
    rewrite Hother; [reflexivity| |discriminate].
    vm_compute. intros E. repeat (destruct E as [E|E]; [discriminate E|]). exact E.
Defined.

(** X9: selecting the same program again changes nothing. *)
Theorem change_program_idempotent (self : LaserMetaData) (p : Z) :
  p < Z.of_nat (length Programs) ->
  change_program (snd (change_program self p)) p
  = (inr tt, snd (change_program self p)).
Proof.
  intros Hp. rewrite (change_program_eq self p Hp). cbn [snd].
  rewrite (change_program_eq _ p Hp). f_equal. unfold setattr.
  rewrite dict_set_same.
  - apply dict_update_same. intros k v Hin.
    apply dict_get_update; [apply program0_fields_keys|].
    apply dict_get_In; [apply program0_fields_keys | exact Hin].
  - rewrite dict_get_update_other; [apply dict_get_set_same|].
    vm_compute. intros H. repeat (destruct H as [H|H]; [discriminate H|]). exact H.
Qed.

Lemma change_program_idempotent_witness :
  change_program (snd (change_program [] 0)) 0 = (inr tt, snd (change_program [] 0)).
Proof. apply (change_program_idempotent [] 0). simpl. lia. Defined.





End MetaDataFacts.

(* ------------------------------------------------------------------ *)
(** ** More of [LaserData.parse_insert] *)

Module LaserDataFacts.
Import Py PyFacts DataHandler LaserDataSpec.

(** X11: whatever the frame, [parse_insert] never raises [ValueError], never
    touches the metadata and never takes a sample away: the buffer it
    leaves starts with the buffer it found.  It warns at most once, and
    when the warning shows the raw frame the object is as it was. *)
Theorem parse_insert_keeps_buffer (self : LaserData) (data : str) (now : datetime) :
  let '(r, self', warned) := parse_insert self data now in
  r <> inl ValueError
  /\ MetaData self' = MetaData self
  /\ (exists added, Data self' = Data self ++ added)
  /\ (length warned <= 1)%nat
  /\ (warned <> [] -> r = inr tt)
  /\ (forall a b, warned = [InvalidData (ExStr a) (ExStr b)] -> self' = self).
Proof.
  unfold parse_insert.
  destruct (mapM py_float (tl (split "," (strip (replace SENTINEL $"nan" data)))))
    as [e|parsed].
  - destruct e; cbn;
      (split; [discriminate|]); (split; [reflexivity|]);
      (split; [exists []; symmetry; apply app_nil_r|]);
      (split; [lia|]); (split; [try reflexivity; intros H; now contradiction H|]);
      intros a b H; try reflexivity; discriminate H.
  - rewrite insert_eq.
    destruct (window_start (MetaData self) (Z.of_nat (length (Data self ++ parsed))) now)
      as [e|start].
    + destruct e; cbn;
        (split; [discriminate|]); (split; [reflexivity|]);
        (split; [exists parsed; reflexivity|]);
        (split; [lia|]); (split; [try reflexivity; intros H; now contradiction H|]);
        intros a b H; discriminate H.
    + cbn. split; [discriminate|]. split; [reflexivity|].
      split; [exists parsed; reflexivity|]. split; [lia|].
      split; [reflexivity|]. intros a b H. discriminate H.
Qed.

(** X12: a frame without a comma has no samples: nothing is appended and
    nothing is warned of, but the frame counts as a call of [insert], so
    [EndTime] moves to the reading of the clock and [StartTime] with it. *)
Theorem parse_insert_no_samples (self : LaserData) (data : str) (now start : datetime) :
  ~ In ","%char data ->
  window_start (MetaData self) (data_length self) now = inr start ->
  parse_insert self data now
  = (inr tt,
     {| Data := Data self; MetaData := MetaData self;
        StartTime := start; EndTime := now |},
     []).
Proof.
  intros Hfree Hstart. unfold parse_insert.
  rewrite split_free.
  - cbn [tl mapM ret]. rewrite insert_eq, app_nil_r.
    unfold data_length in Hstart. rewrite Hstart. reflexivity.
  - intros H. unfold strip in H. apply rstrip_In, lstrip_In in H.
    apply replace_from_chars in H as [H | H]; [now apply Hfree|].
    vm_compute in H. repeat (destruct H as [H|H]; [discriminate H|]). exact H.
Qed.

Lemma parse_insert_no_samples_witness :
  exists self self',
    LaserData_init 63000000000000000 63000000000000001 = inr self
    /\ parse_insert self $"status ok" 63000000005000000 = (inr tt, self', [])
    /\ Data self' = []
    /\ StartTime self' = 63000000005000000
    /\ EndTime self' = 63000000005000000.
Proof.
  destruct (LaserData_init 63000000000000000 63000000000000001) as [e|self] eqn:Hi;
    [discriminate Hi|].
  assert (Hd : Data self = []) by (injection Hi as <-; reflexivity).
  assert (Hdt : dt (MetaData self) = inr (Computed 0.001%float))
    by (injection Hi as <-; reflexivity).
  assert (Hs : window_start (MetaData self) (data_length self) 63000000005000000
               = inr 63000000005000000).
  { unfold data_length. rewrite Hd. unfold window_start. rewrite Hdt.
    vm_compute. reflexivity. }
  eexists self, _. split; [reflexivity|]. split.
  - apply (parse_insert_no_samples self $"status ok" 63000000005000000
             63000000005000000); [|exact Hs].
    vm_compute. intros H. repeat (destruct H as [H|H]; [discriminate H|]). exact H.
  - cbn. auto.
Defined.

(** The buffer after a frame that parses, whether [insert] returns or not. *)
Lemma parse_insert_buffer (self : LaserData) (data : str) (now : datetime) :
  (forall t, In t (sample_tokens data) -> t = SENTINEL \/ numeric t) ->
  Data (snd (fst (parse_insert self data now)))
  = Data self ++ map sample_value (sample_tokens data).
Proof.
  intros Hall. unfold parse_insert. rewrite (parse_accepted data Hall), insert_eq.
  destruct (window_start (MetaData self)
              (Z.of_nat (length (Data self ++ map sample_value (sample_tokens data)))) now)
    as [e|start]; [destruct e|]; reflexivity.
Qed.

Lemma parse_insert_metadata (self : LaserData) (data : str) (now : datetime) :
  MetaData (snd (fst (parse_insert self data now))) = MetaData self.
Proof.
  unfold parse_insert.
  destruct (mapM py_float (tl (split "," (strip (replace SENTINEL $"nan" data)))))
    as [e|parsed]; [destruct e; reflexivity|].
  rewrite insert_eq.
  destruct (window_start (MetaData self) (Z.of_nat (length (Data self ++ parsed))) now)
    as [e|start]; [destruct e|]; reflexivity.
Qed.

Lemma has_nan_app (self : LaserData) (l : list float) :
  existsb is_nan (Data self ++ l) = has_nan self || existsb is_nan l.
Proof. unfold has_nan. apply existsb_app. Qed.

(** Whatever the frame, the buffer afterwards starts with the buffer
    before. *)
Lemma parse_insert_extends (self : LaserData) (data : str) (now : datetime) :
  exists added, Data (snd (fst (parse_insert self data now))) = Data self ++ added.
Proof.
  unfold parse_insert.
  destruct (mapM py_float (tl (split "," (strip (replace SENTINEL $"nan" data)))))
    as [e|parsed]; [exists []; destruct e; symmetry; apply app_nil_r|].
  exists parsed. rewrite insert_eq.
  destruct (window_start (MetaData self) (Z.of_nat (length (Data self ++ parsed))) now)
    as [e|start]; [destruct e|]; reflexivity.
Qed.

(** X13: a sentinel in a frame that parses reaches [timeseries]: the buffer then
    holds a [nan], [timeseries] warns, and the series has zero at the place
    of the sentinel's reading.  A [nan] once in the buffer stays there
    through every later [parse_insert], whatever the frame, and every later
    [insert]; [timeseries] keeps warning. *)
Theorem sentinel_reaches_timeseries (self : LaserData) (data : str) (now : datetime) :
  let self' := snd (fst (parse_insert self data now)) in
  ((forall t, In t (sample_tokens data) -> t = SENTINEL \/ numeric t) ->
   (In SENTINEL (sample_tokens data) ->
    has_nan self' = true /\ snd (timeseries self') = [NaNReplaced])
   /\ (forall ts i,
         fst (fst (timeseries self')) = inr ts ->
         nth_error (sample_tokens data) i = Some SENTINEL ->
         nth_error (ts_data ts) (length (Data self) + i) = Some zero))
  /\ (has_nan self = true ->
      has_nan self' = true /\ snd (timeseries self') = [NaNReplaced])
  /\ (forall more later,
        has_nan self = true -> has_nan (snd (insert self more later)) = true).
Proof.
  intros self'.
  assert (Hwarn : has_nan self' = true ->
                  has_nan self' = true /\ snd (timeseries self') = [NaNReplaced]).
  { intros Hn. split; [exact Hn|]. unfold timeseries. rewrite Hn. reflexivity. }
  split; [|split].
  - intros Hall.
    assert (Hdata : Data self' = Data self ++ map sample_value (sample_tokens data))
      by apply (parse_insert_buffer self data now Hall).
    assert (Hsent : In SENTINEL (sample_tokens data) -> has_nan self' = true).
    { intros Hin. unfold has_nan at 1. rewrite Hdata, has_nan_app.
      apply orb_true_iff. right. apply existsb_exists.
      exists (sample_value SENTINEL). split; [apply in_map, Hin | reflexivity]. }
    split; [intros H; apply Hwarn, Hsent, H|].
    intros ts i Hts Hi.
    assert (Hn : has_nan self' = true).
    { apply Hsent. apply nth_error_In in Hi. exact Hi. }
    unfold timeseries in Hts. rewrite Hn in Hts.
    destruct (dt (MetaData self')); [discriminate Hts|]. cbn in Hts.
    injection Hts as <-. cbn [ts_data]. rewrite Hdata, map_app.
    rewrite nth_error_app2 by (rewrite length_map; lia).
    rewrite length_map. replace (length (Data self) + i - length (Data self))%nat with i by lia.
    rewrite !map_map. rewrite nth_error_map, Hi. reflexivity.
  - intros H. apply Hwarn.
    destruct (parse_insert_extends self data now) as [added Hadd].
    unfold has_nan at 1. fold self' in Hadd. rewrite Hadd, has_nan_app, H. reflexivity.
  - intros more later H. rewrite insert_eq.
    destruct (window_start (MetaData self) (Z.of_nat (length (Data self ++ more))) later);
      unfold has_nan at 1; cbn [snd Data]; rewrite has_nan_app, H; reflexivity.
Qed.

Lemma sentinel_reaches_timeseries_witness :
  exists self self' self'' ts,
    LaserData_init 63000000000000000 63000000000000001 = inr self
    /\ self' = snd (fst (parse_insert self $"m,1.5,FFFFFFF" 63000000005000000))
    /\ has_nan self' = true
    /\ timeseries self' = (inr ts, self', [NaNReplaced])
    /\ nth_error (ts_data ts) 1 = Some zero
    /\ self'' = snd (fst (parse_insert self' $"m,oops" 63000000006000000))
    /\ has_nan self'' = true.
Proof.
  destruct (LaserData_init 63000000000000000 63000000000000001) as [e|self] eqn:Hi;
    [discriminate Hi|].
  assert (Hd : Data self = []) by (injection Hi as <-; reflexivity).
  assert (Hm : dt (MetaData self) = inr (Computed 0.001%float))
    by (injection Hi as <-; reflexivity).
  pose proof (sentinel_reaches_timeseries self $"m,1.5,FFFFFFF" 63000000005000000) as H.
  cbv zeta in H. destruct H as (Hparsed & _ & _).
  destruct Hparsed as (Hnan & Hzero).
  { intros t Hin. vm_compute in Hin. destruct Hin as [<-|[<-|[]]].
    - right. eexists. vm_compute. reflexivity.
    - left. reflexivity. }
  destruct Hnan as [Hn Hw]; [vm_compute; tauto|].
  set (self' := snd (fst (parse_insert self $"m,1.5,FFFFFFF" 63000000005000000))) in *.
  destruct (timeseries self') as [[r s] w] eqn:Hts.
  assert (Hmeta : MetaData self' = MetaData self) by apply parse_insert_metadata.
  assert (Hr : exists ts, r = inr ts /\ s = self').
  { unfold timeseries in Hts. rewrite Hn, Hmeta, Hm in Hts. cbn in Hts.
    injection Hts as <- <- _. eexists. split; reflexivity. }
  destruct Hr as (ts & -> & ->). cbn [snd] in Hw. subst w.
  pose proof (sentinel_reaches_timeseries self' $"m,oops" 63000000006000000) as H'.
  cbv zeta in H'. destruct H' as (_ & Hkeep & _).
  exists self, self', (snd (fst (parse_insert self' $"m,oops" 63000000006000000))), ts.
  split; [reflexivity|]. split; [reflexivity|].
  split; [exact Hn|]. split; [exact Hts|].
  split; [|split; [reflexivity | apply (Hkeep Hn)]].
  specialize (Hzero ts 1%nat eq_refl eq_refl). rewrite Hd in Hzero. exact Hzero.
Defined.

(** X14: with a sampling interval that cannot be read ([dt] raises
    [ValueError]), a frame that parses is appended all the same, [EndTime]
    moves and [StartTime] does not, and the [ValueError] of [insert] comes
    out as the warning about invalid data, this time showing the parsed
    readings. *)
Theorem parse_insert_undefined_interval (self : LaserData) (data : str) (now : datetime) :
  dt (MetaData self) = inl ValueError ->
  (forall t, In t (sample_tokens data) -> t = SENTINEL \/ numeric t) ->
  let readings := map sample_value (sample_tokens data) in
  insert self readings now
  = (inl ValueError,
     {| Data := Data self ++ readings; MetaData := MetaData self;
        StartTime := StartTime self; EndTime := now |})
  /\ parse_insert self data now
     = (inr tt,
        {| Data := Data self ++ readings; MetaData := MetaData self;
           StartTime := StartTime self; EndTime := now |},
        [InvalidData (ExList (slice_to 10 readings)) (ExList (slice_last 10 readings))]).
Proof.
  intros Hdt Hall readings.
  assert (Hins : insert self readings now
                 = (inl ValueError,
                    {| Data := Data self ++ readings; MetaData := MetaData self;
                       StartTime := StartTime self; EndTime := now |})).
  { rewrite insert_eq. unfold window_start. rewrite Hdt. reflexivity. }
  split; [exact Hins|].
  unfold parse_insert. rewrite (parse_accepted data Hall). fold readings.
  rewrite Hins. reflexivity.
Qed.

Lemma parse_insert_undefined_interval_witness :
  let self := {| Data := [7%float]; MetaData := [($"SamplingCycle", VStr $"undefined")];
                 StartTime := 5; EndTime := 6 |} in
  parse_insert self $"m,1.5" 9
  = (inr tt,
     {| Data := [7; 1.5]%float; MetaData := MetaData self; StartTime := 5; EndTime := 9 |},
     [InvalidData (ExList [1.5%float]) (ExList [1.5%float])]).
Proof.
  intros self.
  apply (proj2 (parse_insert_undefined_interval self $"m,1.5" 9 eq_refl
                  ltac:(intros t Hin; vm_compute in Hin; destruct Hin as [<-|[]];
                        right; eexists; vm_compute; reflexivity))).
Defined.

Lemma numeric_dec (t : str) : numeric t \/ ~ numeric t.
Proof.
  unfold numeric. destruct (py_float t) as [e|v]; [right | left; now exists v].
  intros [v H]. discriminate H.
Qed.

Lemma all_or_one (P : str -> Prop) (l : list str) :
  (forall t, P t \/ ~ P t) -> Forall P l \/ Exists (fun t => ~ P t) l.
Proof.
  intros Hdec. induction l as [|t r IH]; [left; constructor|].
  destruct (Hdec t) as [Ht | Ht]; [|right; now constructor].
  destruct IH as [IH | IH]; [left; now constructor | right; now constructor 2].
Qed.

(** X15: a frame is either taken whole or dropped whole, and the sample tokens
    of the stripped frame decide which: when [float] accepts every one of
    them after the sentinel has been replaced inside it (so also a sentinel
    with a sign), their readings are appended in order; when it refuses one,
    the object is left as it was and the warning shows the raw frame. *)
Theorem parse_insert_all_or_nothing (self : LaserData) (data : str) (now : datetime) :
  (Forall (fun t => numeric (replace SENTINEL $"nan" t)) (sample_tokens (strip data))
   /\ Data (snd (fst (parse_insert self data now)))
      = Data self ++ map reading (sample_tokens (strip data))
   /\ forall a b, snd (parse_insert self data now) <> [InvalidData (ExStr a) (ExStr b)])
  \/ (Exists (fun t => ~ numeric (replace SENTINEL $"nan" t)) (sample_tokens (strip data))
      /\ parse_insert self data now
         = (inr tt, self,
            [InvalidData (ExStr (slice_to 10 data)) (ExStr (slice_last 10 data))])).
Proof.
  destruct (all_or_one (fun t => numeric (replace SENTINEL $"nan" t))
              (sample_tokens (strip data)))
    as [Hall | Hone].
  - intros t. apply numeric_dec.
  - left. split; [exact Hall|].
    assert (Hparse : mapM py_float (tl (split "," (strip (replace SENTINEL $"nan" data))))
                     = inr (map reading (sample_tokens (strip data)))).
    { rewrite parse_tokens, mapM_map. apply mapM_all. intros t Hin.
      rewrite Forall_forall in Hall. destruct (Hall t Hin) as [v Hv].
      unfold reading. rewrite Hv. reflexivity. }
    unfold parse_insert. rewrite Hparse, insert_eq.
    destruct (window_start (MetaData self)
                (Z.of_nat (length (Data self ++ map reading (sample_tokens (strip data))))) now)
      as [e|start]; [destruct e|];
      (split; [reflexivity | intros a b H; discriminate H]).
  - right. split; [exact Hone|].
    apply Exists_exists in Hone as (t & Hin & Hbad).
    apply (parse_rejected self data now t Hin).
    intros v Hv. apply Hbad. now exists v.
Qed.

(** The separator U+001C is white space for [strip] and not for [float]:
    at the end of the frame it is dropped with the rest of the white space
    and the frame is taken; in front of a sample it makes [float] refuse
    the token and the frame is dropped. *)
Lemma parse_insert_all_or_nothing_witness :
  let self := {| Data := [7%float]; MetaData := []; StartTime := 5; EndTime := 6 |} in
  let fs := "028"%char in
  py_float ($"1.5" ++ [fs]) = inl ValueError
  /\ Data (snd (fst (parse_insert self ($"m,1.5" ++ [fs]) 9))) = [7; 1.5]%float
  /\ parse_insert self ($"m," ++ fs :: $"1.5,2") 9
     = (inr tt, self, [InvalidData (ExStr ($"m," ++ fs :: $"1.5,2"))
                         (ExStr ($"m," ++ fs :: $"1.5,2"))]).
Proof.
  intros self fs. split; [vm_compute; reflexivity|].
  assert (T1 : sample_tokens (strip ($"m,1.5" ++ [fs])) = [$"1.5"])
    by (vm_compute; reflexivity).
  assert (T2 : sample_tokens (strip ($"m," ++ fs :: $"1.5,2")) = [fs :: $"1.5"; $"2"])
    by (vm_compute; reflexivity).
  split.
  - destruct (parse_insert_all_or_nothing self ($"m,1.5" ++ [fs]) 9)
      as [(_ & H & _) | (H & _)].
    + rewrite H, T1. vm_compute. reflexivity.
    + exfalso. rewrite T1 in H.
      inversion H as [t l Hbad | t l Hrest]; subst.
      * apply Hbad. exists 1.5%float. vm_compute. reflexivity.
      * inversion Hrest.
  - destruct (parse_insert_all_or_nothing self ($"m," ++ fs :: $"1.5,2") 9)
      as [(H & _) | (_ & H)]; [|exact H].
    exfalso. rewrite T2 in H.
    inversion H as [|t l [v Hv] _]; subst. vm_compute in Hv. discriminate Hv.
Defined.

End LaserDataFacts.
